(** * VLC playback backend of Quod Libet: a shallow embedding

    This development embeds [quodlibet/player/vlcbe/player.py] (class
    [VLCPlayer]) and states the properties of its pause, seek, stop,
    end-of-song, volume and equalizer paths.

    Modelling conventions.
    - The attributes of the Python object are the fields of [State], with
      the names the class gives them.
    - A Python float is the rational ([Q]) it denotes; [int(x)] is
      truncation toward zero.  The product [v * 100] of the volume path is
      an IEEE double multiplication: the exact product rounded to the
      nearest double ([float_mul]).  Infinities and NaN are outside the
      model: a product is taken to stay below the largest double.  The
      fractions handed to and read from the native player are kept
      exact.
    - The native media player is outside the source.  A [MediaPlayer]
      value carries what the native object answers to the queries the class
      makes ([get_state], [can_pause], ...); the answers are stable while
      one method runs on the control thread.  Commands sent to the native
      layer are not interpreted: they are recorded, in order, in the trace
      of the call.
    - [emit] runs the connected signal handlers synchronously.  Handlers
      are external code: they are a parameter [handlers], an arbitrary
      transformer of the player state.  The trace of a call records each
      emission together with the state the handlers were run on.
    - A method is a computation in the monad [M]: it reads and writes the
      state, appends to the trace and may raise a Python exception.
    - [print_d] (debug output) is not modelled, nor is [setup]; of
      [_event_callback_async] only the choice of the handler is, not the
      hand-over between threads.
    - The tables of the native equalizer (band count and frequencies,
      presets) are parameters; reading them is not recorded in the
      trace. *)

From Stdlib Require Import ZArith QArith Qround Qabs Bool List String Lia.
Import ListNotations.

Local Open Scope Z_scope.

(** ** Data *)

(** A song object: an identity and the value of its ["~uri"] key. *)
Record Song := mkSong { song_id : nat; song_uri : string }.

Definition Song_eq_dec (a b : Song) : {a = b} + {a <> b}.
Proof. decide equality; [apply string_dec | apply Nat.eq_dec]. Defined.

(** [a is b] on two attributes holding a song or [None]. *)
Definition py_is (a b : option Song) : bool :=
  match a, b with
  | None, None => true
  | Some x, Some y => if Song_eq_dec x y then true else false
  | _, _ => false
  end.

(** [vlc.State]. *)
Inductive VlcState :=
| NothingSpecial | Opening | Buffering | Playing | Paused | Stopped | Ended
| Error.

(** [st in [vlc.State.Playing, vlc.State.Paused]]. *)
Definition playing_or_paused (st : VlcState) : bool :=
  match st with
  | Playing | Paused => true
  | _ => false
  end.

(** [vlc.EventType], the two members the class attaches to. *)
Inductive EventType := MediaPlayerPlaying | MediaPlayerEndReached.

(** The native media player object and what it currently answers. *)
Record MediaPlayer := mkMediaPlayer {
  mp_id : nat;
  mp_state : VlcState;          (* get_state() *)
  mp_can_pause : Z;             (* can_pause() *)
  mp_is_seekable : bool;        (* is_seekable() *)
  mp_length : Z;                (* get_length(), milliseconds *)
  mp_position : Q;              (* get_position(), fraction *)
  mp_mute : Z                   (* audio_get_mute() *)
}.

(** Values of GObject properties. *)
Inductive PropValue := VFloat (q : Q) | VBool (b : bool).

(** The number a property value stands for ([True] is [1]). *)
Definition num_of (v : PropValue) : Q :=
  match v with
  | VFloat q => q
  | VBool true => 1%Q
  | VBool false => 0%Q
  end.

(** [self.EqualizerPreset(name, bands, preamp)]. *)
Record EqualizerPreset := mkEqualizerPreset {
  preset_label : string;
  preset_bands : list Q;
  preset_gain : Q
}.

(** Python exceptions raised by the modelled code. *)
Inductive Exn := AttributeError | TypeError | ZeroDivisionError | KeyError.

(** Signals of the player object. *)
Inductive Signal :=
| SigPaused
| SigUnpaused
| SigSongStarted (s : option Song)
| SigSongEnded (s : option Song) (stopped : bool)
| SigSeek (s : option Song) (position : Z)
| SigNotify (prop : string).

(** [int(x)] on a float: truncation toward zero. *)
Definition py_int (x : Q) : Z := Z.quot (Qnum x) (Zpos (Qden x)).

(** ** Double precision

    Rounding of a rational to the nearest IEEE double (53 bits of
    significand, ties to even, gradual underflow; no overflow). *)

(** [2 ^ e] for any integer [e]. *)
Definition pow2 (e : Z) : Q :=
  if 0 <=? e then inject_Z (2 ^ e) else 1 # Z.to_pos (2 ^ (- e)).

(** [floor (log2 a)] for [a > 0]. *)
Definition ilog2 (a : Q) : Z :=
  let k := Z.log2 (Qnum a) - Z.log2 (Zpos (Qden a)) in
  if Qle_bool (pow2 k) a then k else k - 1.

(** The nearest integer, halves going to the even neighbour. *)
Definition round_half_even (x : Q) : Z :=
  let f := Qfloor x in
  match (x - inject_Z f ?= 1 # 2)%Q with
  | Lt => f
  | Gt => f + 1
  | Eq => if Z.even f then f else f + 1
  end.

(** The nearest double. *)
Definition round_double (x : Q) : Q :=
  if Qeq_bool x 0 then 0%Q
  else
    let a := Qabs x in
    let e := Z.max (ilog2 a - 52) (-1074) in
    let m := (inject_Z (round_half_even (a * pow2 (- e))) * pow2 e)%Q in
    if Qnum x <? 0 then (- m)%Q else m.

(** [x * y] on two floats. *)
Definition float_mul (x y : Q) : Q := round_double (x * y).

(** A value below the largest double in magnitude. *)
Definition double_in_range (x : Q) : Prop := (Qabs x < pow2 1024)%Q.

(** Truth value of a float: every value but zero. *)
Definition truthy (x : Q) : bool := negb (Qeq_bool x 0).

(** [any(xs)]. *)
Definition py_any (xs : list Q) : bool := existsb truthy xs.

(** The playlist model behind [self._source] is an external collaborator.
    The class observes it through [.current] and advances it with
    [.next_ended()] only, so a source is the sequence of songs (or [None])
    it yields from now on. *)
Definition Source := nat -> option Song.
Definition source_current (s : Source) : option Song := s 0%nat.
Definition source_next_ended (s : Source) : Source := fun n => s (S n).

(** ** The player object *)

Record State := mkState {
  _paused : bool;
  _vlcmp : option MediaPlayer;
  _vlceq : option nat;
  _eq_preamp : Q;
  _volume : PropValue;
  _seekOnPlay : option Z;
  _events : option nat;
  song : option Song;
  info : option Song;
  _source : Source;
  _eq_values : list Q;
  next_handle : nat             (* next free native handle *)
}.

Definition set_paused_field (v : bool) (p : State) : State :=
  mkState v (_vlcmp p) (_vlceq p) (_eq_preamp p) (_volume p) (_seekOnPlay p)
    (_events p) (song p) (info p) (_source p) (_eq_values p) (next_handle p).

Definition set_vlcmp (v : option MediaPlayer) (p : State) : State :=
  mkState (_paused p) v (_vlceq p) (_eq_preamp p) (_volume p) (_seekOnPlay p)
    (_events p) (song p) (info p) (_source p) (_eq_values p) (next_handle p).

Definition set_vlceq (v : option nat) (p : State) : State :=
  mkState (_paused p) (_vlcmp p) v (_eq_preamp p) (_volume p) (_seekOnPlay p)
    (_events p) (song p) (info p) (_source p) (_eq_values p) (next_handle p).

Definition set_eq_preamp_field (v : Q) (p : State) : State :=
  mkState (_paused p) (_vlcmp p) (_vlceq p) v (_volume p) (_seekOnPlay p)
    (_events p) (song p) (info p) (_source p) (_eq_values p) (next_handle p).

Definition set_volume_field (v : PropValue) (p : State) : State :=
  mkState (_paused p) (_vlcmp p) (_vlceq p) (_eq_preamp p) v (_seekOnPlay p)
    (_events p) (song p) (info p) (_source p) (_eq_values p) (next_handle p).

Definition set_seekOnPlay (v : option Z) (p : State) : State :=
  mkState (_paused p) (_vlcmp p) (_vlceq p) (_eq_preamp p) (_volume p) v
    (_events p) (song p) (info p) (_source p) (_eq_values p) (next_handle p).

Definition set_events (v : option nat) (p : State) : State :=
  mkState (_paused p) (_vlcmp p) (_vlceq p) (_eq_preamp p) (_volume p)
    (_seekOnPlay p) v (song p) (info p) (_source p) (_eq_values p)
    (next_handle p).

Definition set_song (v : option Song) (p : State) : State :=
  mkState (_paused p) (_vlcmp p) (_vlceq p) (_eq_preamp p) (_volume p)
    (_seekOnPlay p) (_events p) v (info p) (_source p) (_eq_values p)
    (next_handle p).

Definition set_info (v : option Song) (p : State) : State :=
  mkState (_paused p) (_vlcmp p) (_vlceq p) (_eq_preamp p) (_volume p)
    (_seekOnPlay p) (_events p) (song p) v (_source p) (_eq_values p)
    (next_handle p).

Definition set_source (v : Source) (p : State) : State :=
  mkState (_paused p) (_vlcmp p) (_vlceq p) (_eq_preamp p) (_volume p)
    (_seekOnPlay p) (_events p) (song p) (info p) v (_eq_values p)
    (next_handle p).

Definition set_next_handle (v : nat) (p : State) : State :=
  mkState (_paused p) (_vlcmp p) (_vlceq p) (_eq_preamp p) (_volume p)
    (_seekOnPlay p) (_events p) (song p) (info p) (_source p) (_eq_values p)
    v.

(** ** Effects *)

(** What a call does to the outside, in order. *)
Inductive Event :=
| Emit (sig : Signal) (seen : State)      (* self.emit / self.notify *)
| MediaPlayerNew (mp : nat) (mrl : string)
| EventAttach (mp : nat) (ty : EventType)
| SetEqualizer (mp : nat) (eq : nat)
| SetMrl (mp : nat) (mrl : string)
| Play (mp : nat)
| Stop (mp : nat)
| Release (mp : nat)
| SetPause (mp : nat) (on : bool)
| SetPosition (mp : nat) (fraction : Q)
| AudioSetVolume (mp : nat) (v : Z)
| AudioSetMute (mp : nat) (v : PropValue)
| EqRelease (eq : option nat)
| EqNewFromPreset (preset : nat) (eq : nat)
| EqSetAmpAtIndex (eq : nat) (amp : Q) (band : nat)
| EqSetPreamp (eq : nat) (preamp : Q)
| SourceNextEnded
| RunnerAbort.

Inductive Outcome (A : Type) :=
| Returned (a : A)
| Raised (e : Exn).
Arguments Returned {A} a.
Arguments Raised {A} e.

Definition M (A : Type) : Type := State -> Outcome A * State * list Event.

Definition ret {A} (a : A) : M A := fun p => (Returned a, p, []).

Definition bind {A B} (m : M A) (k : A -> M B) : M B :=
  fun p =>
    match m p with
    | (Returned a, p1, t1) =>
        match k a p1 with
        | (o, p2, t2) => (o, p2, t1 ++ t2)
        end
    | (Raised e, p1, t1) => (Raised e, p1, t1)
    end.

Definition raise {A} (e : Exn) : M A := fun p => (Raised e, p, []).
Definition get : M State := fun p => (Returned p, p, []).
Definition modify (f : State -> State) : M unit :=
  fun p => (Returned tt, f p, []).
Definition tell (t : list Event) : M unit := fun p => (Returned tt, p, t).

Definition result_of {A} (r : Outcome A * State * list Event) : Outcome A :=
  fst (fst r).
Definition state_of {A} (r : Outcome A * State * list Event) : State :=
  snd (fst r).
Definition trace_of {A} (r : Outcome A * State * list Event) : list Event :=
  snd r.


Notation "x <- m ;; k" := (bind m (fun x => k))
  (at level 61, m at next level, right associativity).
Notation "m ;; k" := (bind m (fun _ => k))
  (at level 61, right associativity).

Section Player.

(** ** External collaborators *)

(** The signal handlers connected to the player. *)
Variable handlers : Signal -> State -> State.

(** [BasePlayer.calc_replaygain_volume], not part of this class. *)
Variable calc_replaygain_volume : State -> Q -> Q.

(** [BasePlayer.stop], reached through [super().stop()]. *)
Variable base_stop : M unit.

(** [vlc.MediaPlayer(mrl)]: the native object allocated at a handle. *)
Variable vlc_MediaPlayer : nat -> string -> MediaPlayer.

(** [self.emit(sig, ...)]: the handlers run before [emit] returns. *)
Definition emit (sig : Signal) : M unit :=
  fun p => (Returned tt, handlers sig p, [Emit sig p]).

(** [self.song("~uri")]; calling [None] is a [TypeError]. *)
Definition song_uri_of : M string :=
  p <- get ;;
  match song p with
  | Some s => ret (song_uri s)
  | None => raise TypeError
  end.

(** ** Methods of [VLCPlayer] *)

(** The state a [paused] assignment really requests: pausing is forced
    when there is no player or the player cannot pause. *)
Definition effective_pause (state : bool) (p : State) : bool :=
  match _vlcmp p with
  | None => true
  | Some mp => if mp_can_pause mp =? 0 then true else state
  end.

(** [paused.setter] *)
Definition paused_setter (state : bool) : M unit :=
  p <- get ;;
  let state := effective_pause state p in
  let prev_state := _paused p in
  modify (set_paused_field state) ;;
  (if negb (Bool.eqb state prev_state)
   then (q <- get ;; emit (if _paused q then SigPaused else SigUnpaused))
   else ret tt) ;;
  q <- get ;;
  match _vlcmp q with
  | Some mp => tell [SetPause (mp_id mp) (_paused q)]
  | None => modify (set_paused_field true)
  end.

(** [do_get_property] *)
Definition do_get_property (name : string) : M PropValue :=
  p <- get ;;
  if String.eqb name "volume" then ret (_volume p)
  else if String.eqb name "seekable" then
    match song p with
    | None => ret (VBool false)
    | Some _ => ret (VBool true)
    end
  else if String.eqb name "mute" then
    match _vlcmp p with
    | Some mp =>
        let isMuted := mp_mute mp in
        if isMuted =? -1 then ret (VBool false)
        else if isMuted =? 0 then ret (VBool false)
        else if isMuted =? 1 then ret (VBool true)
        else raise KeyError
    | None => ret (VBool false)
    end
  else raise AttributeError.

(** [do_set_property] *)
Definition do_set_property (name : string) (v : PropValue) : M unit :=
  if String.eqb name "volume" then
    modify (set_volume_field v) ;;
    p <- get ;;
    match _vlcmp p with
    | Some mp =>
        let v := calc_replaygain_volume p (num_of v) in
        let v := Z.min 100 (py_int (float_mul v 100)) in
        tell [AudioSetVolume (mp_id mp) v]
    | None => ret tt
    end
  else if String.eqb name "mute" then
    p <- get ;;
    match _vlcmp p with
    | Some mp => tell [AudioSetMute (mp_id mp) v]
    | None => ret tt
    end
  else raise AttributeError.

(** [_destroy] *)
Definition _destroy : M unit :=
  p <- get ;;
  match _vlcmp p with
  | Some mp =>
      tell [Release (mp_id mp)] ;;
      modify (set_vlcmp None) ;;
      modify (set_events None)
  | None => ret tt
  end ;;
  tell [RunnerAbort].

(** [_play] *)
Definition _play (seek : option Z) : M unit :=
  p <- get ;;
  match _vlcmp p with
  | None =>
      uri <- song_uri_of ;;
      let mp := vlc_MediaPlayer (next_handle p) uri in
      modify (set_next_handle (S (next_handle p))) ;;
      modify (set_vlcmp (Some mp)) ;;
      tell [MediaPlayerNew (mp_id mp) uri] ;;
      modify (set_events (Some (mp_id mp))) ;;
      tell [EventAttach (mp_id mp) MediaPlayerPlaying;
            EventAttach (mp_id mp) MediaPlayerEndReached] ;;
      match _vlceq p with
      | Some eq => tell [SetEqualizer (mp_id mp) eq]
      | None => ret tt
      end
  | Some mp =>
      uri <- song_uri_of ;;
      tell [SetMrl (mp_id mp) uri]
  end ;;
  modify (set_seekOnPlay seek) ;;
  q <- get ;;
  match _vlcmp q with
  | Some mp => tell [Play (mp_id mp)]
  | None => raise AttributeError
  end.

(** [_stop] *)
Definition _stop : M unit :=
  p <- get ;;
  match _vlcmp p with
  | Some mp =>
      (if playing_or_paused (mp_state mp)
       then tell [Release (mp_id mp)]
       else ret tt) ;;
      modify (set_vlcmp None) ;;
      modify (set_events None)
  | None => ret tt
  end.

(** [stop] *)
Definition stop : M unit :=
  base_stop ;;
  _stop.

(** [_end] *)
Definition _end (stopped : bool) (next_song : option Song) : M unit :=
  p <- get ;;
  let song0 := song p in
  let info0 := info p in
  modify (set_song None) ;;
  modify (set_info None) ;;
  (if negb (py_is song0 info0)
   then emit (SigSongEnded info0 stopped)
   else ret tt) ;;
  emit (SigSongEnded song0 stopped) ;;
  q <- get ;;
  let current :=
    match next_song with
    | None => source_current (_source q)
    | Some _ => next_song
    end in
  modify (set_song current) ;;
  modify (set_info current) ;;
  match current with
  | Some _ => _play None
  | None => _stop
  end.


(** [st == other] on [vlc.State]. *)
Definition VlcState_eqb (a b : VlcState) : bool :=
  match a, b with
  | NothingSpecial, NothingSpecial | Opening, Opening
  | Buffering, Buffering | Playing, Playing | Paused, Paused
  | Stopped, Stopped | Ended, Ended | Error, Error => true
  | _, _ => false
  end.

(** [position / self._vlcmp.get_length()] followed by [set_position]. *)
Definition set_position_ms (mp : MediaPlayer) (position : Z) : M unit :=
  if mp_length mp =? 0 then raise ZeroDivisionError
  else tell [SetPosition (mp_id mp)
               (inject_Z position / inject_Z (mp_length mp))%Q].

(** [_event_playing_sync] *)
Definition _event_playing_sync : M unit :=
  p <- get ;;
  (if _paused p then paused_setter (_paused p) else ret tt) ;;
  q <- get ;;
  emit (SigSongStarted (song q)) ;;
  emit (SigNotify "seekable") ;;
  r <- get ;;
  match _seekOnPlay r with
  | Some position =>
      match _vlcmp r with
      | Some mp =>
          if mp_is_seekable mp then
            set_position_ms mp position ;;
            emit (SigSeek (song r) position) ;;
            modify (set_seekOnPlay None)
          else ret tt
      | None => raise AttributeError
      end
  | None => ret tt
  end.

(** [_event_ended_sync] *)
Definition _event_ended_sync : M unit :=
  _stop ;;
  p <- get ;;
  modify (set_source (source_next_ended (_source p))) ;;
  tell [SourceNextEnded] ;;
  _end false None.

(** The handler [_event_callback_async] selects for a native event; the
    hand-over to the control thread is not modelled. *)
Definition callback_for (ty : EventType) : M unit :=
  match ty with
  | MediaPlayerPlaying => _event_playing_sync
  | MediaPlayerEndReached => _event_ended_sync
  end.

(** Between two calls on the control thread the native player may change
    what it answers. *)
Definition backend_moves (f : MediaPlayer -> MediaPlayer) : M unit :=
  modify (fun p => set_vlcmp (option_map f (_vlcmp p)) p).

(** A change of song as the control thread sees it: the native player
    reaches the end of its item, the handler of that event starts the next
    one, the native player moves on and reports that it is playing. *)
Definition song_change (f : MediaPlayer -> MediaPlayer) : M unit :=
  callback_for MediaPlayerEndReached ;;
  backend_moves f ;;
  callback_for MediaPlayerPlaying.

(** [seek] *)
Definition seek (position : Z) : M unit :=
  p <- get ;;
  match _vlcmp p with
  | Some mp =>
      if VlcState_eqb (mp_state mp) Paused then
        set_position_ms mp position ;;
        q <- get ;;
        emit (SigSeek (song q) position)
      else if VlcState_eqb (mp_state mp) Playing then
        set_position_ms mp position ;;
        q <- get ;;
        emit (SigSeek (song q) position)
      else
        tell [Stop (mp_id mp)] ;;
        modify (set_seekOnPlay (Some position)) ;;
        tell [Play (mp_id mp)]
  | None =>
      match song p with
      | Some _ => _play (Some position)
      | None => ret tt
      end
  end.

(** [get_position] *)
Definition get_position : M Z :=
  p <- get ;;
  match _vlcmp p with
  | Some mp =>
      if playing_or_paused (mp_state mp)
      then ret (py_int (mp_position mp * inject_Z (mp_length mp)))
      else ret 0
  | None => ret 0
  end.

(** [can_play_uri] *)
Definition can_play_uri (uri : string) : M bool := ret true.

(** The loop over [enumerate(self._eq_values)], from index [band]. *)
Fixpoint set_amps (eq : nat) (band : nat) (vals : list Q) : list Event :=
  match vals with
  | [] => []
  | val :: rest => EqSetAmpAtIndex eq val band :: set_amps eq (S band) rest
  end.

(** [update_eq_values] *)
Definition update_eq_values : M unit :=
  p <- get ;;
  tell [EqRelease (_vlceq p)] ;;
  let eq := next_handle p in
  modify (set_next_handle (S eq)) ;;
  modify (set_vlceq (Some eq)) ;;
  tell [EqNewFromPreset 0 eq] ;;
  (if py_any (_eq_values p)
   then tell (set_amps eq 0 (_eq_values p))
   else ret tt) ;;
  match _vlcmp p with
  | Some mp => tell [SetEqualizer (mp_id mp) eq]
  | None => ret tt
  end.

(** [eq_has_preamp] *)
Definition eq_has_preamp : M bool := ret true.

(** [eq_preamp] (getter) *)
Definition eq_preamp : M Q := p <- get ;; ret (_eq_preamp p).

(** [eq_preamp.setter] *)
Definition eq_preamp_setter (value : Q) : M unit :=
  modify (set_eq_preamp_field value) ;;
  p <- get ;;
  match _vlceq p with
  | Some eq => tell [EqSetPreamp eq value]
  | None => ret tt
  end.

(** [eq_range] *)
Definition eq_range : M (Z * Z) := ret (-20, 20).

(** The tables of the native equalizer. *)
Variable band_count : nat.              (* ..._get_band_count() *)
Variable band_frequency : nat -> Q.     (* ..._get_band_frequency(band) *)
Variable preset_count : nat.            (* ..._get_preset_count() *)
Variable preset_name : nat -> string.   (* ..._get_preset_name(i), decoded *)
Variable preset_preamp : nat -> Q.      (* ..._get_preamp of preset i *)
Variable preset_amp : nat -> nat -> Q.  (* ..._get_amp_at_index, preset i *)

(** [eq_bands] *)
Definition eq_bands : M (list Q) :=
  ret (map band_frequency (seq 0 band_count)).

(** The loop of [eq_preset_list] over the preset numbers [presets]. *)
Fixpoint presets_from (presets : list nat) : M (list EqualizerPreset) :=
  match presets with
  | [] => ret []
  | preset :: rest =>
      let name := ("VLC: " ++ preset_name preset)%string in
      p <- get ;;
      let presetEq := next_handle p in
      modify (set_next_handle (S presetEq)) ;;
      tell [EqNewFromPreset preset presetEq] ;;
      let preamp := preset_preamp preset in
      let bands := map (preset_amp preset) (seq 0 band_count) in
      tell [EqRelease (Some presetEq)] ;;
      presetList <- presets_from rest ;;
      ret (mkEqualizerPreset name bands preamp :: presetList)
  end.

(** [eq_preset_list] *)
Definition eq_preset_list : M (list EqualizerPreset) :=
  presets_from (seq 0 preset_count).

(** The first step of [_event_playing_sync], re-applying a tracked pause:
    the state it leaves and the native call it makes. *)
Definition pause_reapplied (q : State) : State :=
  if _paused q then
    match _vlcmp q with
    | Some _ => set_paused_field true q
    | None => set_paused_field true (set_paused_field true q)
    end
  else q.

Definition pause_reapplied_call (q : State) : list Event :=
  if _paused q then
    match _vlcmp q with
    | Some mp => [SetPause (mp_id mp) true]
    | None => []
    end
  else [].

(** A seek made before the native player is ready, as the control thread
    sees it: the call, the native player moving on, and the handler of its
    "playing" event. *)
Definition seek_then_playing (position : Z)
    (f : MediaPlayer -> MediaPlayer) : M unit :=
  seek position ;;
  backend_moves f ;;
  callback_for MediaPlayerPlaying.

(** Handlers that leave an attribute of the player as it is. *)
Definition keeps {A} (field : State -> A) : Prop :=
  forall sig q, field (handlers sig q) = field q.

(** ** Reading a trace *)

(** How many events of a trace satisfy [f]. *)
Definition count_events (f : Event -> bool) (t : list Event) : nat :=
  List.length (filter f t).

Definition is_release (e : Event) : bool :=
  match e with Release _ => true | _ => false end.

Definition is_set_mrl (e : Event) : bool :=
  match e with SetMrl _ _ => true | _ => false end.

Definition is_new_player (e : Event) : bool :=
  match e with MediaPlayerNew _ _ => true | _ => false end.

Definition is_play (e : Event) : bool :=
  match e with Play _ => true | _ => false end.

Definition is_set_pause (e : Event) : bool :=
  match e with SetPause _ _ => true | _ => false end.

Definition is_eq_new (e : Event) : bool :=
  match e with EqNewFromPreset _ _ => true | _ => false end.

(** The release of equalizer handle [h]. *)
Definition releases_eq (h : nat) (e : Event) : bool :=
  match e with
  | EqRelease (Some x) => Nat.eqb x h
  | _ => false
  end.

Definition is_volume_push (e : Event) : bool :=
  match e with AudioSetVolume _ _ => true | _ => false end.

Definition is_pause_signal (e : Signal * State) : bool :=
  match fst e with
  | SigPaused | SigUnpaused => true
  | _ => false
  end.

(** A computation none of whose own events satisfies [bad]. *)
Definition never (bad : Event -> bool) {A} (m : M A) : Prop :=
  forall p, existsb bad (trace_of (m p)) = false.

(** The emissions of a call, in order: each signal with the state of the
    player its handlers were run on. *)
Fixpoint emissions (t : list Event) : list (Signal * State) :=
  match t with
  | [] => []
  | Emit sig seen :: rest => (sig, seen) :: emissions rest
  | _ :: rest => emissions rest
  end.

Definition is_song_ended (sig : Signal) : bool :=
  match sig with
  | SigSongEnded _ _ => true
  | _ => false
  end.

Definition not_song_ended (e : Signal * State) : bool :=
  negb (is_song_ended (fst e)).

Definition is_Some {A} (o : option A) : bool :=
  match o with
  | Some _ => true
  | None => false
  end.

(** The states of the player after each of a series of [paused = b]
    assignments. *)
Fixpoint pause_calls (bs : list bool) (p : State) : list State :=
  match bs with
  | [] => []
  | b :: rest =>
      let p1 := state_of (paused_setter b p) in
      p1 :: pause_calls rest p1
  end.

End Player.

(** ** The specification's volume formula

    [clamp(round(x * 100), 0, 100)], with [round] the nearest integer
    (halves go up; the inputs used below are not halves). *)

Definition spec_round (x : Q) : Z := Qfloor (x + (1 # 2)).

Definition spec_clamp (z lo hi : Z) : Z := Z.max lo (Z.min hi z).

Definition spec_native_volume (x : Q) : Z :=
  spec_clamp (spec_round (x * 100)) 0 100.

(** ** Concrete inputs *)

Definition song_A : Song := mkSong 1 "file:///a.ogg".
Definition song_B : Song := mkSong 2 "file:///b.ogg".

(** A source holding two items. *)
Definition two_items : Source :=
  fun n =>
    match n with
    | 0%nat => Some song_A
    | 1%nat => Some song_B
    | _ => None
    end.

(** Handlers that only watch. *)
Definition watching : Signal -> State -> State := fun _ p => p.

(** A handler that asks for playback to resume whenever it is told of a
    pause. *)
Definition unpausing : Signal -> State -> State :=
  fun sig p =>
    match sig with
    | SigPaused => set_paused_field false p
    | _ => p
    end.

(** No replaygain metadata: identity scaling. *)
Definition no_replaygain : State -> Q -> Q := fun _ v => v.

(** A new native player: nothing known about its media yet. *)
Definition blank_player (handle : nat) (mrl : string) : MediaPlayer :=
  mkMediaPlayer handle NothingSpecial 0 false (-1) 0 0.

(** A native player in the middle of a ten second item. *)
Definition running_player (st : VlcState) : MediaPlayer :=
  mkMediaPlayer 7 st 1 true 10000 (1 # 4) 0.

(** The native player gets going. *)
Definition starts_playing (mp : MediaPlayer) : MediaPlayer :=
  mkMediaPlayer (mp_id mp) Playing 1 true 10000 0 (mp_mute mp).

(** The player object right after construction. *)
Definition idle_state : State :=
  mkState true None None 0 (VFloat 1) None None None None two_items [] 0.

(** The player object while [song_A] is playing on native player 7. *)
Definition active_state (st : VlcState) : State :=
  mkState false (Some (running_player st)) None 0 (VFloat 1) None (Some 7%nat)
    (Some song_A) (Some song_A) two_items [] 8.

(** The player object after the native player was dropped in the middle
    of playback: no native player, pause flag not set. *)
Definition dropped_state : State :=
  set_events None (set_vlcmp None (active_state Playing)).

(** The player object with native player 7 still present and [song_B] set
    as the song to play. *)
Definition next_up_state : State :=
  set_info (Some song_B) (set_song (Some song_B) (active_state Playing)).

(** A [BasePlayer.stop] that pauses. *)
Definition pausing_stop : M unit := paused_setter watching true.

(** An idle player object with a stored preamp, three flat bands and an
    equalizer handle from an earlier update. *)
Definition flat_eq_state : State :=
  mkState true None (Some 4%nat) 3 (VFloat 1) None None None None two_items
    [0; 0; 0]%Q 5.


(** A native equalizer with three bands and two presets. *)
Definition three_bands : nat := 3.
Definition two_presets : nat := 2.
Definition sample_frequency (band : nat) : Q :=
  match band with
  | 0%nat => 60
  | 1%nat => 910
  | _ => 14000
  end.
Definition sample_name (preset : nat) : string :=
  match preset with
  | 0%nat => "Flat"
  | _ => "Classical"
  end.
Definition sample_preamp (preset : nat) : Q :=
  match preset with
  | 0%nat => 12
  | _ => 7
  end.
Definition sample_amp (preset band : nat) : Q :=
  match preset with
  | 0%nat => 0
  | _ => inject_Z (Z.of_nat band)
  end.

(** The player object while [song_A] plays, with a seek stored for the
    "playing" event. *)
Definition pending_seek_state (mp : MediaPlayer) : State :=
  set_seekOnPlay (Some 2500) (set_vlcmp (Some mp) (active_state Playing)).

(** A native player that is not seekable. *)
Definition unseekable_player : MediaPlayer :=
  mkMediaPlayer 7 Playing 1 false 10000 0 0.

(** A native player that reports no length. *)
Definition lengthless_player : MediaPlayer :=
  mkMediaPlayer 7 Playing 1 true 0 0 0.

(** The idle player object with [song_A] selected. *)
Definition selected_state : State :=
  set_info (Some song_A) (set_song (Some song_A) idle_state).

(** The player object with an equalizer of three bands, the middle one
    raised. *)
Definition tuned_eq_state : State :=
  mkState false (Some (running_player Playing)) (Some 4%nat) 3 (VFloat 1)
    None (Some 7%nat) (Some song_A) (Some song_A) two_items
    [0; 5 # 2; 0]%Q 8.

(** A source with nothing left. *)
Definition exhausted : Source := fun _ => None.

(** A native player whose mute query gives an answer outside the table. *)
Definition odd_mute_player : MediaPlayer :=
  mkMediaPlayer 7 Playing 1 true 10000 0 2.

(** The player object after [song_A] ended on a source with nothing
    left. *)
Definition last_song_state : State :=
  set_source exhausted (active_state Ended).

(** The doubles written [0.29] and [0.3]. *)
Definition double_0_29 : Q := 5224175567749775 # 18014398509481984.
Definition double_0_3 : Q := 5404319552844595 # 18014398509481984.
(** * Properties *)

Section Properties.

Variable handlers : Signal -> State -> State.
Variable calc_replaygain_volume : State -> Q -> Q.
Variable base_stop : M unit.
Variable vlc_MediaPlayer : nat -> string -> MediaPlayer.

(** ** Running computations *)

Lemma bind_returned {A B} (m : M A) (k : A -> M B) p a p1 t1 :
  m p = (Returned a, p1, t1) ->
  bind m k p =
    (result_of (k a p1), state_of (k a p1), t1 ++ trace_of (k a p1)).
Proof.
  intros Hm. unfold bind. rewrite Hm.
  destruct (k a p1) as [[o p2] t2]. reflexivity.
Qed.

Lemma bind_raised {A B} (m : M A) (k : A -> M B) p e p1 t1 :
  m p = (Raised e, p1, t1) ->
  bind m k p = (Raised e, p1, t1).
Proof. intros Hm. unfold bind. rewrite Hm. reflexivity. Qed.

Lemma run_eta {A} (r : Outcome A * State * list Event) :
  r = (result_of r, state_of r, trace_of r).
Proof. destruct r as [[o p] t]. reflexivity. Qed.

Lemma emissions_app t1 t2 :
  emissions (t1 ++ t2) = emissions t1 ++ emissions t2.
Proof.
  induction t1 as [|e t1 IH]; simpl; [reflexivity|].
  destruct e; simpl; rewrite ?IH; reflexivity.
Qed.

(** ** The pause flag *)

(** What one [paused = b] assignment does, step by step. *)
Lemma paused_setter_run b p :
  paused_setter handlers b p =
    let eff := effective_pause b p in
    let p1 := set_paused_field eff p in
    let sig := if eff then SigPaused else SigUnpaused in
    let p2 := if Bool.eqb eff (_paused p) then p1 else handlers sig p1 in
    let t := if Bool.eqb eff (_paused p) then [] else [Emit sig p1] in
    match _vlcmp p2 with
    | Some mp => (Returned tt, p2, t ++ [SetPause (mp_id mp) (_paused p2)])
    | None => (Returned tt, set_paused_field true p2, t)
    end.
Proof.
  unfold paused_setter, bind, get, modify, emit, tell, ret. cbn zeta.
  destruct (Bool.eqb (effective_pause b p) (_paused p)); cbn.
  - destruct (_vlcmp p); reflexivity.
  - destruct (_vlcmp (handlers _ _)); reflexivity.
Qed.

(** Without a native player one assignment leaves the flag set, whatever
    was asked and whatever the handlers did to the flag. *)
Lemma paused_setter_idle b p :
  (forall sig q, _vlcmp q = None -> _vlcmp (handlers sig q) = None) ->
  _vlcmp p = None ->
  _paused (state_of (paused_setter handlers b p)) = true /\
  _vlcmp (state_of (paused_setter handlers b p)) = None.
Proof.
  intros Hh Hp. rewrite paused_setter_run. cbn zeta.
  set (eff := effective_pause b p).
  assert (Hnone :
    _vlcmp (if Bool.eqb eff (_paused p) then set_paused_field eff p
            else handlers (if eff then SigPaused else SigUnpaused)
                   (set_paused_field eff p)) = None).
  { destruct (Bool.eqb eff (_paused p)); [exact Hp | apply Hh; exact Hp]. }
  rewrite Hnone. split; [reflexivity | exact Hnone].
Qed.

Lemma pause_calls_idle bs : forall p,
  (forall sig q, _vlcmp q = None -> _vlcmp (handlers sig q) = None) ->
  _vlcmp p = None ->
  Forall (fun q => _paused q = true /\ _vlcmp q = None)
    (pause_calls handlers bs p).
Proof.
  induction bs as [|b bs IH]; intros p Hh Hp; simpl.
  - constructor.
  - destruct (paused_setter_idle b p Hh Hp) as [Hflag Hnone].
    constructor; [split; assumption|].
    apply IH; assumption.
Qed.

(** C4. For every sequence of [paused = True] / [paused = False]
    assignments made while no native player exists (and with handlers that
    do not create one), the tracked pause flag is [True] after each
    assignment returns. *)
Theorem idle_pause_flag_stays_true (bs : list bool) (p : State) :
  (forall sig q, _vlcmp q = None -> _vlcmp (handlers sig q) = None) ->
  _vlcmp p = None ->
  Forall (fun q => _paused q = true) (pause_calls handlers bs p).
Proof.
  intros Hh Hp.
  eapply Forall_impl; [|apply pause_calls_idle; eassumption].
  intros q [Hq _]. exact Hq.
Qed.

(** C5. One [paused = b] assignment emits nothing when the state it
    effectively requests equals the tracked flag, and otherwise emits
    exactly one signal, [paused] or [unpaused] according to the new flag,
    to handlers that see the new flag. *)
Theorem paused_signal_once_per_change (b : bool) (p : State) :
  emissions (trace_of (paused_setter handlers b p)) =
    if Bool.eqb (effective_pause b p) (_paused p) then []
    else [(if effective_pause b p then SigPaused else SigUnpaused,
           set_paused_field (effective_pause b p) p)].
Proof.
  rewrite paused_setter_run. cbn zeta.
  destruct (Bool.eqb (effective_pause b p) (_paused p)).
  - destruct (_vlcmp _); reflexivity.
  - destruct (_vlcmp _); reflexivity.
Qed.

(** ** Position and properties *)

(** C9. [get_position] returns 0 when there is no native player or the
    player reports a state other than Playing or Paused; in Playing or
    Paused it returns the fractional position times the length, truncated
    to an integer.  It changes nothing and has no effect. *)
Theorem get_position_zero_unless_active (p : State) :
  (_vlcmp p = None -> get_position p = (Returned 0, p, [])) /\
  (forall mp,
     _vlcmp p = Some mp ->
     mp_state mp <> Playing -> mp_state mp <> Paused ->
     get_position p = (Returned 0, p, [])) /\
  (forall mp,
     _vlcmp p = Some mp ->
     mp_state mp = Playing \/ mp_state mp = Paused ->
     get_position p =
       (Returned (py_int (mp_position mp * inject_Z (mp_length mp))), p, [])).
Proof.
  unfold get_position, bind, get, ret. cbn.
  repeat split.
  - intros H. rewrite H. reflexivity.
  - intros mp H Hpl Hpa. rewrite H.
    destruct (mp_state mp); try reflexivity; congruence.
  - intros mp H [Hs | Hs]; rewrite H, Hs; reflexivity.
Qed.

(** C10. The [seekable] property is true exactly when a current song is
    set; the answer does not depend on the native player, so it is true
    even when there is none. *)
Theorem seekable_follows_song_only (p : State) (mp : option MediaPlayer) :
  do_get_property "seekable" p = (Returned (VBool (is_Some (song p))), p, []) /\
  result_of (do_get_property "seekable" (set_vlcmp mp p)) =
    result_of (do_get_property "seekable" p) /\
  result_of
    (do_get_property "seekable" (set_song (Some song_A) (set_vlcmp None p))) =
    Returned (VBool true).
Proof.
  unfold do_get_property, bind, get, ret. cbn.
  destruct (song p); repeat split; reflexivity.
Qed.

(** ** Stopping *)

Lemma _stop_run (p : State) :
  _stop p =
    match _vlcmp p with
    | Some mp =>
        (Returned tt, set_events None (set_vlcmp None p),
         if playing_or_paused (mp_state mp) then [Release (mp_id mp)] else [])
    | None => (Returned tt, p, [])
    end.
Proof.
  unfold _stop, bind, get, modify, tell, ret. cbn.
  destruct (_vlcmp p) as [mp|]; [|reflexivity].
  destruct (playing_or_paused (mp_state mp)); reflexivity.
Qed.

(** C8. [stop()], once [BasePlayer.stop] has returned with a native player
    still referenced: the player is released when it reports Playing or
    Paused and not otherwise, and in both cases the reference is cleared, so
    that no native player is referenced when [stop()] returns. *)
Theorem stop_releases_only_when_active (p p1 : State) (t1 : list Event)
    (mp : MediaPlayer) :
  base_stop p = (Returned tt, p1, t1) ->
  _vlcmp p1 = Some mp ->
  stop base_stop p =
    (Returned tt, set_events None (set_vlcmp None p1),
     t1 ++ (if playing_or_paused (mp_state mp)
            then [Release (mp_id mp)] else [])) /\
  _vlcmp (state_of (stop base_stop p)) = None.
Proof.
  intros Hb Hmp. unfold stop.
  rewrite (bind_returned _ _ _ _ _ _ Hb), _stop_run, Hmp.
  split; reflexivity.
Qed.

(** ** Volume *)

Lemma py_int_nonneg (x : Q) : (0 <= x)%Q -> 0 <= py_int x.
Proof.
  intros Hx. unfold py_int. apply Z.quot_pos; [|lia].
  unfold Qle in Hx. simpl in Hx. lia.
Qed.

Lemma pow2_pos (e : Z) : (0 < pow2 e)%Q.
Proof.
  unfold pow2. destruct (0 <=? e) eqn:He.
  - apply Z.leb_le in He. unfold Qlt. simpl.
    assert (0 < 2 ^ e) by (apply Z.pow_pos_nonneg; lia). lia.
  - reflexivity.
Qed.

Lemma round_half_even_nonneg (x : Q) : (0 <= x)%Q -> 0 <= round_half_even x.
Proof.
  intros Hx. unfold round_half_even.
  assert (Hf : 0 <= Qfloor x).
  { change 0 with (Qfloor 0). apply Qfloor_resp_le. exact Hx. }
  destruct (x - inject_Z (Qfloor x) ?= 1 # 2)%Q;
    [destruct (Z.even (Qfloor x))| |]; lia.
Qed.

Lemma round_double_nonneg (x : Q) : (0 <= x)%Q -> (0 <= round_double x)%Q.
Proof.
  intros Hx. unfold round_double.
  destruct (Qeq_bool x 0); [apply Qle_refl|].
  assert (Hn : (Qnum x <? 0) = false).
  { apply Z.ltb_ge. unfold Qle in Hx. simpl in Hx. lia. }
  rewrite Hn. cbv zeta.
  apply Qmult_le_0_compat.
  - change 0%Q with (inject_Z 0). rewrite <- Zle_Qle.
    apply round_half_even_nonneg.
    apply Qmult_le_0_compat; [apply Qabs_nonneg|].
    apply Qlt_le_weak, pow2_pos.
  - apply Qlt_le_weak, pow2_pos.
Qed.

(** C3, as the code has it.  Setting the volume to [v] while a native
    player exists stores [v] and pushes
    [min(100, int(calc_replaygain_volume(v) * 100))]: the product, a
    double (taken to be finite), is truncated toward zero, not rounded to
    the nearest integer, and capped at 100; there is no clamp at 0, the
    pushed value being non-negative whenever the scaled value is. *)
Theorem volume_pushed_truncated_and_capped (v : Q) (p : State)
    (mp : MediaPlayer) :
  _vlcmp p = Some mp ->
  let scaled := calc_replaygain_volume (set_volume_field (VFloat v) p) v in
  let product := float_mul scaled 100 in
  let pushed := Z.min 100 (py_int product) in
  double_in_range product ->
  do_set_property calc_replaygain_volume "volume" (VFloat v) p =
    (Returned tt, set_volume_field (VFloat v) p,
     [AudioSetVolume (mp_id mp) pushed]) /\
  pushed <= 100 /\
  ((0 <= scaled)%Q -> 0 <= pushed).
Proof.
  intros Hmp scaled product pushed _.
  split.
  { unfold do_set_property, bind, get, modify, tell, ret.
    cbn [String.eqb Ascii.eqb Bool.eqb fst snd app _vlcmp set_volume_field
         num_of].
    rewrite Hmp. reflexivity. }
  split; [subst pushed; lia|].
  intros Hs. subst pushed.
  assert (0 <= py_int product).
  { apply py_int_nonneg. apply round_double_nonneg.
    apply Qmult_le_0_compat; [exact Hs | discriminate]. }
  lia.
Qed.

(** ** Starting playback *)

(** C1, as the code has it.  [_play] with a native player already present
    reuses that object: it points it at the song's URI with [set_mrl] and
    starts it, releasing nothing and creating nothing.  A native player is
    created, and the two event handlers attached, only when none is
    present. *)
Theorem play_reuses_present_player (seek : option Z) (p : State) (s : Song) :
  song p = Some s ->
  match _vlcmp p with
  | Some mp =>
      _play vlc_MediaPlayer seek p =
        (Returned tt, set_seekOnPlay seek p,
         [SetMrl (mp_id mp) (song_uri s); Play (mp_id mp)])
  | None =>
      let mp := vlc_MediaPlayer (next_handle p) (song_uri s) in
      result_of (_play vlc_MediaPlayer seek p) = Returned tt /\
      _vlcmp (state_of (_play vlc_MediaPlayer seek p)) = Some mp /\
      trace_of (_play vlc_MediaPlayer seek p) =
        [MediaPlayerNew (mp_id mp) (song_uri s);
         EventAttach (mp_id mp) MediaPlayerPlaying;
         EventAttach (mp_id mp) MediaPlayerEndReached] ++
        match _vlceq p with
        | Some eq => [SetEqualizer (mp_id mp) eq]
        | None => []
        end ++
        [Play (mp_id mp)]
  end.
Proof.
  intros Hs.
  unfold _play, song_uri_of, bind, get, modify, tell, ret.
  destruct (_vlcmp p) as [mp|] eqn:Hmp; cbn; rewrite Hs; cbn.
  - rewrite Hmp. reflexivity.
  - destruct (_vlceq p); cbn; repeat split; reflexivity.
Qed.

(** ** Equalizer *)

Lemma py_any_zeros (gains : list Q) :
  Forall (fun g => (g == 0)%Q) gains -> py_any gains = false.
Proof.
  induction 1 as [|g gains Hg _ IH]; [reflexivity|].
  unfold py_any in *. simpl. rewrite IH.
  unfold truthy. apply Qeq_bool_iff in Hg. rewrite Hg. reflexivity.
Qed.

(** C2, as the code has it.  With gains that are all zero,
    [update_eq_values] releases the old handle, allocates a new one from
    preset 0 and attaches it to the native player if there is one: it sets
    no band and makes no preamp call, and the stored preamp value stays as
    it was.  The stored preamp reaches a handle through the [eq_preamp]
    setter only; assigned after the update, it is applied to the new
    handle. *)
Theorem flat_gains_set_no_band_and_no_preamp (p : State) (value : Q) :
  Forall (fun g => (g == 0)%Q) (_eq_values p) ->
  let r := update_eq_values p in
  let eq := next_handle p in
  result_of r = Returned tt /\
  trace_of r =
    [EqRelease (_vlceq p); EqNewFromPreset 0 eq] ++
    match _vlcmp p with
    | Some mp => [SetEqualizer (mp_id mp) eq]
    | None => []
    end /\
  _vlceq (state_of r) = Some eq /\
  _eq_preamp (state_of r) = _eq_preamp p /\
  trace_of (eq_preamp_setter value (state_of r)) = [EqSetPreamp eq value].
Proof.
  intros Hz. apply py_any_zeros in Hz.
  unfold update_eq_values, eq_preamp_setter, bind, get, modify, tell, ret.
  cbn. rewrite Hz.
  destruct (_vlcmp p); cbn; repeat split; reflexivity.
Qed.

(** ** Seeking *)

Lemma VlcState_eqb_eq (a b : VlcState) : VlcState_eqb a b = true <-> a = b.
Proof. destruct a, b; simpl; split; congruence. Qed.

(** What [seek] does when the native player reports Paused or Playing. *)
Lemma seek_active_run (position : Z) (p : State) (mp : MediaPlayer) :
  _vlcmp p = Some mp ->
  mp_state mp = Paused \/ mp_state mp = Playing ->
  seek handlers vlc_MediaPlayer position p =
    if mp_length mp =? 0 then (Raised ZeroDivisionError, p, [])
    else
      (Returned tt, handlers (SigSeek (song p) position) p,
       [SetPosition (mp_id mp)
          (inject_Z position / inject_Z (mp_length mp))%Q;
        Emit (SigSeek (song p) position) p]).
Proof.
  intros Hmp Hst.
  unfold seek, set_position_ms, bind, get, emit, tell, raise, ret. cbn.
  rewrite Hmp.
  destruct Hst as [Hst | Hst]; rewrite Hst; cbn;
    destruct (mp_length mp =? 0); reflexivity.
Qed.

(** C7. A [seek] made while a native player exists and reports Paused or
    Playing leaves the tracked pause flag as it was (handlers that keep the
    flag assumed): the call applies the fractional position and emits
    [seek], handing the unchanged player state to the handlers, or, when
    the reported length is 0, raises on the division before doing
    either. *)
Theorem seek_active_keeps_pause_flag (position : Z) (p : State)
    (mp : MediaPlayer) :
  _vlcmp p = Some mp ->
  mp_state mp = Paused \/ mp_state mp = Playing ->
  (forall sig q, _paused (handlers sig q) = _paused q) ->
  let r := seek handlers vlc_MediaPlayer position p in
  _paused (state_of r) = _paused p /\
  trace_of r =
    (if mp_length mp =? 0 then []
     else [SetPosition (mp_id mp)
             (inject_Z position / inject_Z (mp_length mp))%Q;
           Emit (SigSeek (song p) position) p]).
Proof.
  intros Hmp Hst Hh r. subst r.
  rewrite (seek_active_run position p mp Hmp Hst).
  destruct (mp_length mp =? 0); cbn; [split; reflexivity|].
  split; [apply Hh | reflexivity].
Qed.

(** ** End of a song *)

(** [_play] with a song set returns normally, keeps the song and emits
    nothing. *)
Lemma _play_quiet (seek : option Z) (p : State) (s : Song) :
  song p = Some s ->
  exists q t,
    _play vlc_MediaPlayer seek p = (Returned tt, q, t) /\
    song q = Some s /\ emissions t = [].
Proof.
  intros Hs.
  unfold _play, song_uri_of, bind, get, modify, tell, ret.
  destruct (_vlcmp p) as [mp|] eqn:Hmp; cbn; rewrite Hs; cbn.
  - rewrite Hmp. eexists _, _. repeat split; first [exact Hs | reflexivity].
  - destruct (_vlceq p); cbn; eexists _, _; repeat split;
      first [exact Hs | reflexivity].
Qed.

(** Re-applying a pause that is already tracked emits nothing and keeps
    the song. *)
Lemma paused_setter_reapply (q : State) :
  _paused q = true ->
  exists q' t,
    paused_setter handlers true q = (Returned tt, q', t) /\
    song q' = song q /\ emissions t = [].
Proof.
  intros Hq. rewrite paused_setter_run. cbn zeta.
  assert (He : effective_pause true q = true).
  { unfold effective_pause. destruct (_vlcmp q) as [mp|]; [|reflexivity].
    destruct (mp_can_pause mp =? 0); reflexivity. }
  rewrite He, Hq. cbn.
  destruct (_vlcmp q); eexists _, _; repeat split; reflexivity.
Qed.

(** The handler of the native "playing" event first emits [song-started]
    for the current song; it emits no [song-ended]. *)
Lemma playing_emits_started_first (q : State) :
  exists seen rest,
    emissions (trace_of (_event_playing_sync handlers q)) =
      (SigSongStarted (song q), seen) :: rest /\
    forallb not_song_ended rest = true.
Proof.
  unfold _event_playing_sync.
  assert (Hpre : exists q' t,
    (if _paused q then paused_setter handlers (_paused q) else ret tt) q =
      (Returned tt, q', t) /\ song q' = song q /\ emissions t = []).
  { destruct (_paused q) eqn:Hq.
    - apply paused_setter_reapply. exact Hq.
    - eexists _, _. repeat split; reflexivity. }
  destruct Hpre as (q' & t & Hrun & Hsong & Hem).
  unfold bind at 1. unfold get at 1. cbn beta iota.
  rewrite (bind_returned _ _ _ _ _ _ Hrun). cbn [trace_of snd app].
  rewrite emissions_app, Hem. cbn [app].
  unfold set_position_ms, bind, get, emit, modify, tell, raise, ret.
  cbn. rewrite Hsong.
  set (q1 := handlers (SigSongStarted (song q)) q').
  set (q2 := handlers (SigNotify "seekable") q1).
  destruct (_seekOnPlay q2) as [pos|]; cbn;
    [|eexists _, _; split; reflexivity].
  destruct (_vlcmp q2) as [mp|]; cbn;
    [|eexists _, _; split; reflexivity].
  destruct (mp_is_seekable mp); cbn;
    [|eexists _, _; split; reflexivity].
  destruct (mp_length mp =? 0); cbn; eexists _, _; split; reflexivity.
Qed.

Lemma _stop_quiet (p : State) :
  exists ps ts,
    _stop p = (Returned tt, ps, ts) /\
    song ps = song p /\ info ps = info p /\ _source ps = _source p /\
    emissions ts = [].
Proof.
  rewrite _stop_run. destruct (_vlcmp p) as [mp|].
  - eexists _, _. split; [reflexivity|].
    destruct (playing_or_paused (mp_state mp)); repeat split; reflexivity.
  - eexists _, _. repeat split; reflexivity.
Qed.

Ltac run_play b :=
  match goal with
  | |- context [_play ?v ?s ?st] =>
      let q := fresh "q" in
      let t := fresh "t" in
      let Hplay := fresh "Hplay" in
      let Hq := fresh "Hq" in
      let Ht := fresh "Ht" in
      destruct (_play_quiet s st b eq_refl) as (q & t & Hplay & Hq & Ht);
      rewrite Hplay; cbn; rewrite ?Ht
  end.

(** [_end(False)] with handlers that leave the song and the source alone:
    every [song-ended] is delivered on a state whose song is [None], and
    the source's current song is then set up. *)
Lemma _end_emits_on_cleared_song (p : State) (a b : Song) :
  (forall sig q, song (handlers sig q) = song q) ->
  (forall sig q, _source (handlers sig q) = _source q) ->
  song p = Some a ->
  source_current (_source p) = Some b ->
  exists seen0 seenA q t,
    _end handlers vlc_MediaPlayer false None p = (Returned tt, q, t) /\
    song q = Some b /\
    emissions t =
      (if py_is (song p) (info p) then []
       else [(SigSongEnded (info p) false, seen0)]) ++
      [(SigSongEnded (Some a) false, seenA)] /\
    song seen0 = None /\ song seenA = None.
Proof.
  intros Hsong Hsrc Ha Hb.
  unfold _end, bind, get, modify, emit, ret. unfold source_current in *. cbn.
  rewrite Ha.
  destruct (py_is (Some a) (info p)); cbn.
  - rewrite !Hsrc. cbn. rewrite Hb. run_play b.
    exists (set_info None (set_song None p)).
    eexists _, _, _. split; [reflexivity|].
    cbn. rewrite Ht. repeat split; first [exact Hq | reflexivity].
  - rewrite !Hsrc. cbn. rewrite Hb. run_play b.
    eexists _, _, _, _. split; [reflexivity|].
    cbn. rewrite Ht.
    split; [exact Hq|]. split; [reflexivity|].
    split; [reflexivity|]. rewrite Hsong. reflexivity.
Qed.

(** The handler of the native "end-reached" event: the same, after the
    old native player has been dropped and the source told to advance. *)
Lemma ended_emits_on_cleared_song (p : State) (a b : Song) :
  (forall sig q, song (handlers sig q) = song q) ->
  (forall sig q, _source (handlers sig q) = _source q) ->
  song p = Some a ->
  source_current (source_next_ended (_source p)) = Some b ->
  exists seen0 seenA q t,
    _event_ended_sync handlers vlc_MediaPlayer p = (Returned tt, q, t) /\
    song q = Some b /\
    emissions t =
      (if py_is (song p) (info p) then []
       else [(SigSongEnded (info p) false, seen0)]) ++
      [(SigSongEnded (Some a) false, seenA)] /\
    song seen0 = None /\ song seenA = None.
Proof.
  intros Hsong Hsrc Ha Hb.
  destruct (_stop_quiet p) as (ps & ts & Hstop & Hs1 & Hs2 & Hs3 & Hs4).
  set (pn := set_source (source_next_ended (_source ps)) ps).
  destruct (_end_emits_on_cleared_song pn a b Hsong Hsrc)
    as (seen0 & seenA & q & t & Hend & Hq & Ht & H0 & HA).
  { subst pn. cbn. rewrite Hs1. exact Ha. }
  { subst pn. cbn. rewrite Hs3. exact Hb. }
  exists seen0, seenA, q, (ts ++ SourceNextEnded :: t).
  split.
  - unfold _event_ended_sync.
    rewrite (bind_returned _ _ _ _ _ _ Hstop).
    unfold bind, get, modify, tell. fold pn. rewrite Hend. reflexivity.
  - split; [exact Hq|]. split; [|split; assumption].
    rewrite emissions_app, Hs4. cbn. rewrite Ht.
    subst pn. cbn. rewrite Hs1, Hs2. reflexivity.
Qed.

(** C6. When a song ends and the source has a next one (handlers that
    leave the song and the source alone assumed): every [song-ended] is
    delivered on a player state whose current song is [None], so a handler
    asking for the current song gets [None] and not the song that ended;
    and [song-ended] for the finished song comes before [song-started] for
    the next one, after which no [song-ended] follows. *)
Theorem song_ended_on_cleared_song_before_started
    (f : MediaPlayer -> MediaPlayer) (p : State) (a b : Song) :
  (forall sig q, song (handlers sig q) = song q) ->
  (forall sig q, _source (handlers sig q) = _source q) ->
  song p = Some a ->
  source_current (source_next_ended (_source p)) = Some b ->
  exists seen0 seenA seenB rest,
    emissions (trace_of (song_change handlers vlc_MediaPlayer f p)) =
      (if py_is (song p) (info p) then []
       else [(SigSongEnded (info p) false, seen0)]) ++
      (SigSongEnded (Some a) false, seenA) ::
      (SigSongStarted (Some b), seenB) :: rest /\
    song seen0 = None /\
    song seenA = None /\
    forallb not_song_ended rest = true.
Proof.
  intros Hsong Hsrc Ha Hb.
  destruct (ended_emits_on_cleared_song p a b Hsong Hsrc Ha Hb)
    as (seen0 & seenA & q & t & Hend & Hq & Ht & H0 & HA).
  set (q1 := set_vlcmp (option_map f (_vlcmp q)) q).
  destruct (playing_emits_started_first q1) as (seenB & rest & Hpl & Hrest).
  exists seen0, seenA, seenB, rest.
  split; [|repeat split; assumption].
  unfold song_change, callback_for.
  rewrite (bind_returned _ _ _ _ _ _ Hend). cbn [trace_of snd].
  unfold backend_moves. unfold bind at 1. unfold modify at 1. fold q1.
  rewrite (run_eta (_event_playing_sync handlers q1)). cbn [app trace_of snd].
  rewrite emissions_app, Ht, Hpl.
  replace (song q1) with (Some b) by (subst q1; cbn; symmetry; exact Hq).
  rewrite <- app_assoc. reflexivity.
Qed.

(** * Further properties of the class *)

(** ** Seeking before the native player is ready *)

(** What [_play] does when there is no native player and a song is set. *)
Lemma _play_new_run (seek : option Z) (p : State) (s : Song) :
  _vlcmp p = None ->
  song p = Some s ->
  _play vlc_MediaPlayer seek p =
    let mp := vlc_MediaPlayer (next_handle p) (song_uri s) in
    (Returned tt,
     set_seekOnPlay seek
       (set_events (Some (mp_id mp))
          (set_vlcmp (Some mp) (set_next_handle (S (next_handle p)) p))),
     [MediaPlayerNew (mp_id mp) (song_uri s);
      EventAttach (mp_id mp) MediaPlayerPlaying;
      EventAttach (mp_id mp) MediaPlayerEndReached] ++
     match _vlceq p with
     | Some eq => [SetEqualizer (mp_id mp) eq]
     | None => []
     end ++
     [Play (mp_id mp)]).
Proof.
  intros Hmp Hs.
  unfold _play, song_uri_of, bind, get, modify, tell, ret.
  rewrite Hmp. cbn. rewrite Hs. cbn.
  destruct (_vlceq p); reflexivity.
Qed.

Lemma emissions_attach (mp : nat) (eq : option nat) :
  emissions
    (match eq with
     | Some e => [SetEqualizer mp e]
     | None => []
     end ++ [Play mp]) = [].
Proof. destruct eq; reflexivity. Qed.

(** X1. [seek] without a native player.  With a song selected the call goes
    through [_play]: a native player is created and started, the position
    is stored for the "playing" event and no [seek] signal is emitted yet.
    Without a song the call does nothing. *)
Theorem seek_without_player (position : Z) (p : State) :
  _vlcmp p = None ->
  match song p with
  | Some s =>
      let mp := vlc_MediaPlayer (next_handle p) (song_uri s) in
      let r := seek handlers vlc_MediaPlayer position p in
      result_of r = Returned tt /\
      _vlcmp (state_of r) = Some mp /\
      _seekOnPlay (state_of r) = Some position /\
      emissions (trace_of r) = [] /\
      count_events is_new_player (trace_of r) = 1%nat /\
      last (trace_of r) RunnerAbort = Play (mp_id mp)
  | None => seek handlers vlc_MediaPlayer position p = (Returned tt, p, [])
  end.
Proof.
  intros Hmp.
  assert (Hrun : seek handlers vlc_MediaPlayer position p =
                 match song p with
                 | Some _ => _play vlc_MediaPlayer (Some position) p
                 | None => (Returned tt, p, [])
                 end).
  { unfold seek. unfold bind at 1. unfold get at 1. cbn beta iota.
    rewrite Hmp. destruct (song p); [|reflexivity].
    destruct (_play vlc_MediaPlayer (Some position) p) as [[o q] t].
    reflexivity. }
  destruct (song p) as [s|] eqn:Hs; [|exact Hrun].
  cbn zeta. rewrite Hrun, (_play_new_run (Some position) p s Hmp Hs). cbn.
  destruct (_vlceq p); cbn; repeat split; reflexivity.
Qed.

(** What [seek] does with a native player that reports neither Paused nor
    Playing. *)
Lemma seek_not_ready_run (position : Z) (p : State)
    (mp : MediaPlayer) :
  _vlcmp p = Some mp ->
  playing_or_paused (mp_state mp) = false ->
  seek handlers vlc_MediaPlayer position p =
    (Returned tt, set_seekOnPlay (Some position) p,
     [Stop (mp_id mp); Play (mp_id mp)]).
Proof.
  intros Hmp Hst.
  unfold seek, bind, get, modify, tell. cbn. rewrite Hmp.
  destruct (mp_state mp); try discriminate; reflexivity.
Qed.

(** ** The "playing" event *)

Lemma effective_pause_true (q : State) : effective_pause true q = true.
Proof.
  unfold effective_pause. destruct (_vlcmp q) as [mp|]; [|reflexivity].
  destruct (mp_can_pause mp =? 0); reflexivity.
Qed.

Lemma pause_reapplied_run (q : State) :
  (if _paused q then paused_setter handlers (_paused q) else ret tt) q =
    (Returned tt, pause_reapplied q, pause_reapplied_call q).
Proof.
  unfold pause_reapplied, pause_reapplied_call.
  destruct (_paused q) eqn:Hq; [|reflexivity].
  rewrite paused_setter_run. cbn zeta.
  rewrite effective_pause_true, Hq. cbn.
  destruct (_vlcmp q); reflexivity.
Qed.

Lemma pause_reapplied_fields (q : State) :
  song (pause_reapplied q) = song q /\
  _vlcmp (pause_reapplied q) = _vlcmp q /\
  _seekOnPlay (pause_reapplied q) = _seekOnPlay q /\
  _paused (pause_reapplied q) = _paused q.
Proof.
  unfold pause_reapplied.
  destruct (_paused q) eqn:Hq; [|repeat split; exact Hq].
  destruct (_vlcmp q) eqn:Hmp; cbn; rewrite ?Hmp; repeat split; reflexivity.
Qed.

(** What [_event_playing_sync] does, step by step. *)
Lemma playing_run (q : State) :
  _event_playing_sync handlers q =
    let q0 := pause_reapplied q in
    let q1 := handlers (SigSongStarted (song q0)) q0 in
    let q2 := handlers (SigNotify "seekable") q1 in
    let pre :=
      pause_reapplied_call q ++
      [Emit (SigSongStarted (song q0)) q0; Emit (SigNotify "seekable") q1] in
    match _seekOnPlay q2 with
    | None => (Returned tt, q2, pre)
    | Some position =>
        match _vlcmp q2 with
        | None => (Raised AttributeError, q2, pre)
        | Some mp =>
            if mp_is_seekable mp then
              if mp_length mp =? 0 then (Raised ZeroDivisionError, q2, pre)
              else
                (Returned tt,
                 set_seekOnPlay None
                   (handlers (SigSeek (song q2) position) q2),
                 pre ++
                 [SetPosition (mp_id mp)
                    (inject_Z position / inject_Z (mp_length mp))%Q;
                  Emit (SigSeek (song q2) position) q2])
            else (Returned tt, q2, pre)
        end
    end.
Proof.
  unfold _event_playing_sync.
  unfold bind at 1. unfold get at 1. cbn beta iota.
  rewrite (bind_returned _ _ _ _ _ _ (pause_reapplied_run q)).
  cbn zeta.
  set (q0 := pause_reapplied q).
  set (c := pause_reapplied_call q).
  unfold set_position_ms, bind, get, emit, modify, tell, raise, ret. cbn.
  set (q1 := handlers (SigSongStarted (song q0)) q0).
  set (q2 := handlers (SigNotify "seekable") q1).
  destruct (_seekOnPlay q2) as [pos|]; cbn; [|reflexivity].
  destruct (_vlcmp q2) as [mp|]; cbn; [|reflexivity].
  destruct (mp_is_seekable mp); cbn; [|reflexivity].
  destruct (mp_length mp =? 0); cbn; [reflexivity|].
  rewrite <- app_assoc. reflexivity.
Qed.

(** The "playing" handler with a seek stored, on a seekable native player
    of known length. *)
Lemma playing_pending_seek_run (q : State) (position : Z)
    (mp : MediaPlayer) :
  keeps handlers _seekOnPlay -> keeps handlers _vlcmp ->
  keeps handlers song ->
  _seekOnPlay q = Some position ->
  _vlcmp q = Some mp ->
  mp_is_seekable mp = true ->
  mp_length mp <> 0 ->
  exists q' t,
    _event_playing_sync handlers q =
      (Returned tt, set_seekOnPlay None q', t) /\
    map fst (emissions t) =
      [SigSongStarted (song q); SigNotify "seekable";
       SigSeek (song q) position] /\
    In (SetPosition (mp_id mp)
          (inject_Z position / inject_Z (mp_length mp))%Q) t /\
    count_events is_play t = 0%nat.
Proof.
  intros Hk1 Hk2 Hk3 Hseek Hmp Hsk Hlen.
  destruct (pause_reapplied_fields q) as (Fs & Fm & Fk & _).
  rewrite playing_run. cbn zeta.
  rewrite !Hk1, !Hk2, !Hk3, Fs, Fm, Fk, Hseek, Hmp, Hsk.
  apply Z.eqb_neq in Hlen. rewrite Hlen.
  eexists _, _. split; [reflexivity|].
  unfold pause_reapplied_call. rewrite Hmp.
  destruct (_paused q); cbn; repeat split; auto.
Qed.

(** X2. When the "playing" event arrives with a seek stored and the native
    player is seekable and reports a length (handlers that keep the stored
    seek, the native player and the song assumed), the handler emits
    [song-started], notifies [seekable], sets the position to the stored
    milliseconds divided by the length, emits [seek] with the stored
    position and clears the stored seek. *)
Theorem playing_performs_pending_seek (q : State) (position : Z)
    (mp : MediaPlayer) :
  keeps handlers _seekOnPlay -> keeps handlers _vlcmp ->
  keeps handlers song ->
  _seekOnPlay q = Some position ->
  _vlcmp q = Some mp ->
  mp_is_seekable mp = true ->
  mp_length mp <> 0 ->
  let r := _event_playing_sync handlers q in
  result_of r = Returned tt /\
  map fst (emissions (trace_of r)) =
    [SigSongStarted (song q); SigNotify "seekable";
     SigSeek (song q) position] /\
  In (SetPosition (mp_id mp)
        (inject_Z position / inject_Z (mp_length mp))%Q) (trace_of r) /\
  _seekOnPlay (state_of r) = None.
Proof.
  intros Hk1 Hk2 Hk3 Hseek Hmp Hsk Hlen.
  destruct (playing_pending_seek_run q position mp Hk1 Hk2 Hk3 Hseek Hmp
              Hsk Hlen) as (q' & t & Hrun & Hem & Hin & _).
  cbn zeta. rewrite Hrun. repeat split; assumption.
Qed.

(** X3. A seek made with a song selected and no native player is carried out
    when the "playing" event of the new native player arrives (same
    handlers; the player seekable and with a length by then): exactly one
    [song-started] and one [seek] are emitted, the [seek] with the position
    asked for, the native position being set to that position divided by
    the length, and nothing stays stored. *)
Theorem deferred_seek_is_performed (position : Z)
    (f : MediaPlayer -> MediaPlayer) (p : State) (s : Song) :
  keeps handlers _seekOnPlay -> keeps handlers _vlcmp ->
  keeps handlers song ->
  _vlcmp p = None ->
  song p = Some s ->
  let mp := f (vlc_MediaPlayer (next_handle p) (song_uri s)) in
  mp_is_seekable mp = true ->
  mp_length mp <> 0 ->
  let r := seek_then_playing handlers vlc_MediaPlayer position f p in
  result_of r = Returned tt /\
  map fst (emissions (trace_of r)) =
    [SigSongStarted (Some s); SigNotify "seekable";
     SigSeek (Some s) position] /\
  In (SetPosition (mp_id mp)
        (inject_Z position / inject_Z (mp_length mp))%Q) (trace_of r) /\
  count_events is_play (trace_of r) = 1%nat /\
  _seekOnPlay (state_of r) = None.
Proof.
  intros Hk1 Hk2 Hk3 Hnone Hs mp Hsk Hlen.
  assert (Hseek : seek handlers vlc_MediaPlayer position p =
                  _play vlc_MediaPlayer (Some position) p).
  { unfold seek. unfold bind at 1. unfold get at 1. cbn beta iota.
    rewrite Hnone, Hs.
    destruct (_play vlc_MediaPlayer (Some position) p) as [[o q] t].
    reflexivity. }
  rewrite (_play_new_run (Some position) p s Hnone Hs) in Hseek.
  cbn zeta in Hseek.
  set (mp0 := vlc_MediaPlayer (next_handle p) (song_uri s)) in *.
  set (q0 := set_seekOnPlay (Some position)
               (set_events (Some (mp_id mp0))
                  (set_vlcmp (Some mp0)
                     (set_next_handle (S (next_handle p)) p)))) in *.
  set (q1 := set_vlcmp (Some mp) q0).
  destruct (playing_pending_seek_run q1 position mp Hk1 Hk2 Hk3
              eq_refl eq_refl Hsk Hlen) as (q' & t & Hrun & Hem & Hin & Hpl).
  assert (Hall :
    seek_then_playing handlers vlc_MediaPlayer position f p =
      (Returned tt, set_seekOnPlay None q',
       ([MediaPlayerNew (mp_id mp0) (song_uri s);
         EventAttach (mp_id mp0) MediaPlayerPlaying;
         EventAttach (mp_id mp0) MediaPlayerEndReached] ++
        match _vlceq p with
        | Some eq => [SetEqualizer (mp_id mp0) eq]
        | None => []
        end ++ [Play (mp_id mp0)]) ++ t)).
  { unfold seek_then_playing, callback_for.
    rewrite (bind_returned _ _ _ _ _ _ Hseek).
    unfold backend_moves. unfold bind at 1 2 3. unfold modify at 1 2 3.
    cbn [option_map _vlcmp q0 set_seekOnPlay set_events set_vlcmp].
    fold mp. fold q1. rewrite Hrun. reflexivity. }
  cbn zeta. rewrite Hall. cbn [result_of state_of trace_of fst snd].
  split; [reflexivity|].
  split.
  { rewrite emissions_app. cbn [app emissions].
    rewrite emissions_attach. cbn. rewrite Hem.
    replace (song q1) with (Some s) by (symmetry; exact Hs). reflexivity. }
  split; [apply in_or_app; right; exact Hin|].
  split; [|reflexivity].
  unfold count_events in *. rewrite filter_app, length_app, Hpl.
  destruct (_vlceq p); reflexivity.
Qed.

(** X4. When the "playing" event arrives with a seek stored and the native
    player says it is not seekable (handlers that keep the stored seek and
    the native player assumed), the handler returns after [song-started]
    and the [seekable] notification: no [seek] is emitted, no position is
    set, and the seek stays stored. *)
Theorem playing_keeps_seek_when_unseekable (q : State) (position : Z)
    (mp : MediaPlayer) :
  keeps handlers _seekOnPlay -> keeps handlers _vlcmp ->
  _seekOnPlay q = Some position ->
  _vlcmp q = Some mp ->
  mp_is_seekable mp = false ->
  let r := _event_playing_sync handlers q in
  result_of r = Returned tt /\
  map fst (emissions (trace_of r)) =
    [SigSongStarted (song q); SigNotify "seekable"] /\
  _seekOnPlay (state_of r) = Some position.
Proof.
  intros Hk1 Hk2 Hseek Hmp Hsk.
  destruct (pause_reapplied_fields q) as (Fs & Fm & Fk & _).
  cbn zeta. rewrite playing_run. cbn zeta.
  rewrite !Hk1, !Hk2, Fs, Fm, Fk, Hseek, Hmp, Hsk.
  cbn [result_of state_of trace_of fst snd].
  rewrite !Hk1, Fk.
  unfold pause_reapplied_call. rewrite Hmp.
  destruct (_paused q); cbn; repeat split; assumption.
Qed.

(** X5. When the "playing" event arrives with a seek stored (same handlers)
    and the native player is gone, or is seekable but reports length 0,
    the handler raises, [AttributeError] in the first case and
    [ZeroDivisionError] in the second, after [song-started] and the
    [seekable] notification have been delivered; the seek stays stored and
    no [seek] is emitted. *)
Theorem playing_pending_seek_failures (q : State) (position : Z) :
  keeps handlers _seekOnPlay -> keeps handlers _vlcmp ->
  _seekOnPlay q = Some position ->
  (_vlcmp q = None \/
   exists mp, _vlcmp q = Some mp /\ mp_is_seekable mp = true /\
              mp_length mp = 0) ->
  let r := _event_playing_sync handlers q in
  result_of r =
    Raised (if is_Some (_vlcmp q) then ZeroDivisionError
            else AttributeError) /\
  map fst (emissions (trace_of r)) =
    [SigSongStarted (song q); SigNotify "seekable"] /\
  _seekOnPlay (state_of r) = Some position.
Proof.
  intros Hk1 Hk2 Hseek Hcase.
  destruct (pause_reapplied_fields q) as (Fs & Fm & Fk & _).
  cbn zeta. rewrite playing_run. cbn zeta.
  rewrite !Hk1, !Hk2, Fs, Fm, Fk, Hseek.
  unfold pause_reapplied_call.
  destruct Hcase as [Hmp | (mp & Hmp & Hsk & Hlen)]; rewrite Hmp.
  - cbn [result_of state_of trace_of fst snd is_Some].
    rewrite !Hk1, Fk.
    destruct (_paused q); cbn; repeat split; assumption.
  - rewrite Hsk, Hlen. cbn [Z.eqb result_of state_of trace_of fst snd is_Some].
    rewrite !Hk1, Fk.
    destruct (_paused q); cbn; repeat split; assumption.
Qed.

(** X6. With a native player present, the "playing" handler tells it to pause
    before anything else exactly when the pause flag is set, and only
    then; [song-started] follows, and the handler emits neither [paused]
    nor [unpaused].  A pause asked for while the player was starting is
    thus applied to it, silently. *)
Theorem playing_reapplies_pause (q : State) (mp : MediaPlayer) :
  _vlcmp q = Some mp ->
  exists seen rest,
    trace_of (_event_playing_sync handlers q) =
      (if _paused q then [SetPause (mp_id mp) true] else []) ++
      Emit (SigSongStarted (song q)) seen :: rest /\
    _paused seen = _paused q /\
    count_events is_set_pause rest = 0%nat /\
    existsb is_pause_signal
      (emissions (trace_of (_event_playing_sync handlers q))) = false.
Proof.
  intros Hmp.
  destruct (pause_reapplied_fields q) as (Fs & Fm & Fk & Fp).
  rewrite playing_run. cbn zeta. rewrite Fs.
  unfold pause_reapplied_call. rewrite Hmp.
  set (q0 := pause_reapplied q) in *.
  set (q1 := handlers (SigSongStarted (song q)) q0).
  set (q2 := handlers (SigNotify "seekable") q1).
  destruct (_seekOnPlay q2) as [pos|];
    [destruct (_vlcmp q2) as [mp2|];
     [destruct (mp_is_seekable mp2);
      [destruct (mp_length mp2 =? 0)|]|]|];
    cbn [trace_of snd]; exists q0; eexists;
    (split; [rewrite <- ?app_assoc; reflexivity|]);
    (split; [exact Fp|]);
    destruct (_paused q); split; reflexivity.
Qed.

(** X7. With a native player present and handlers that keep it, the last thing
    a [paused] assignment does is to tell the native player the pause
    flag the object now holds, also when a handler changed the flag while
    the signal was delivered. *)
Theorem paused_setter_syncs_native (b : bool) (p : State)
    (mp : MediaPlayer) :
  keeps handlers _vlcmp ->
  _vlcmp p = Some mp ->
  let r := paused_setter handlers b p in
  exists t,
    trace_of r = t ++ [SetPause (mp_id mp) (_paused (state_of r))] /\
    count_events is_set_pause t = 0%nat.
Proof.
  intros Hk Hmp. cbn zeta. rewrite paused_setter_run. cbn zeta.
  destruct (Bool.eqb (effective_pause b p) (_paused p)).
  - cbn [_vlcmp set_paused_field]. rewrite Hmp.
    exists []. split; reflexivity.
  - rewrite Hk. cbn [_vlcmp set_paused_field]. rewrite Hmp.
    eexists. split; reflexivity.
Qed.

(** ** Properties of the GObject interface *)

(** X8. With a native player present, [mute] is read from it: the answer 1 is
    [True], the answers 0 and -1 are [False], and any other answer raises
    [KeyError].  Reading changes nothing. *)
Theorem mute_reads_native_flag (p : State) (mp : MediaPlayer) :
  _vlcmp p = Some mp ->
  (mp_mute mp = 1 ->
   do_get_property "mute" p = (Returned (VBool true), p, [])) /\
  (mp_mute mp = 0 \/ mp_mute mp = -1 ->
   do_get_property "mute" p = (Returned (VBool false), p, [])) /\
  (mp_mute mp < -1 \/ 1 < mp_mute mp ->
   do_get_property "mute" p = (Raised KeyError, p, [])).
Proof.
  intros Hmp. unfold do_get_property, bind, get, raise, ret. cbn.
  rewrite Hmp. repeat split.
  - intros H. rewrite H. reflexivity.
  - intros [H | H]; rewrite H; reflexivity.
  - intros H.
    destruct (mp_mute mp =? -1) eqn:E1; [apply Z.eqb_eq in E1; lia|].
    destruct (mp_mute mp =? 0) eqn:E2; [apply Z.eqb_eq in E2; lia|].
    destruct (mp_mute mp =? 1) eqn:E3; [apply Z.eqb_eq in E3; lia|].
    reflexivity.
Qed.

(** X9. A property name other than [volume] and [mute] cannot be set: the call
    raises [AttributeError] and changes nothing, for [seekable] too, which
    can only be read.  A name that is none of the three cannot be read
    either. *)
Theorem unknown_property_raises (name : string) (v : PropValue)
    (p : State) :
  name <> "volume"%string -> name <> "mute"%string ->
  do_set_property calc_replaygain_volume name v p =
    (Raised AttributeError, p, []) /\
  (name <> "seekable"%string ->
   do_get_property name p = (Raised AttributeError, p, [])).
Proof.
  intros Hv Hm.
  apply String.eqb_neq in Hv. apply String.eqb_neq in Hm.
  split.
  - unfold do_set_property. rewrite Hv, Hm. reflexivity.
  - intros Hs. apply String.eqb_neq in Hs.
    unfold do_get_property, bind, get, raise. cbn.
    rewrite Hv, Hs, Hm. reflexivity.
Qed.

(** X10. The volume that was set is the volume that is read back, unchanged by
    replaygain and whether or not a native player exists; one value is
    pushed to the native player when there is one and none otherwise. *)
Theorem volume_reads_back (v : PropValue) (p : State) :
  let r := do_set_property calc_replaygain_volume "volume" v p in
  result_of r = Returned tt /\
  do_get_property "volume" (state_of r) = (Returned v, state_of r, []) /\
  List.length (trace_of r) = (if is_Some (_vlcmp p) then 1 else 0)%nat /\
  count_events is_volume_push (trace_of r) = List.length (trace_of r).
Proof.
  unfold do_set_property, do_get_property, bind, get, modify, tell, ret.
  cbn. destruct (_vlcmp p); cbn; repeat split; reflexivity.
Qed.

(** X11. Without a native player a [mute] assignment is dropped: nothing is
    stored, nothing is sent, and [mute] reads [False] afterwards whatever
    was assigned. *)
Theorem mute_without_player_is_dropped (v : PropValue) (p : State) :
  _vlcmp p = None ->
  do_set_property calc_replaygain_volume "mute" v p = (Returned tt, p, []) /\
  do_get_property "mute" p = (Returned (VBool false), p, []).
Proof.
  intros Hmp.
  unfold do_set_property, do_get_property, bind, get, tell, ret. cbn.
  rewrite Hmp. split; reflexivity.
Qed.

Lemma py_int_le (x : Q) (n : Z) : (x <= inject_Z n)%Q -> py_int x <= n.
Proof.
  intros Hx. unfold py_int. apply Z.quot_le_upper_bound; [lia|].
  unfold Qle in Hx. simpl in Hx. lia.
Qed.

(** X12. When the native player reports a fractional position between 0 and 1
    and a non-negative length, the position returned lies between 0 and the
    length. *)
Theorem get_position_within_length (p : State) (mp : MediaPlayer) :
  _vlcmp p = Some mp ->
  (0 <= mp_position mp)%Q -> (mp_position mp <= 1)%Q ->
  0 <= mp_length mp ->
  exists ms,
    get_position p = (Returned ms, p, []) /\ 0 <= ms <= mp_length mp.
Proof.
  intros Hmp Hlo Hhi Hlen.
  unfold get_position, bind, get, ret. cbn. rewrite Hmp.
  destruct (playing_or_paused (mp_state mp)).
  - eexists. split; [reflexivity|].
    assert (Hl : (0 <= inject_Z (mp_length mp))%Q).
    { unfold Qle. simpl. lia. }
    split.
    + apply py_int_nonneg. apply Qmult_le_0_compat; assumption.
    + apply py_int_le.
      apply Qle_trans with (1 * inject_Z (mp_length mp))%Q.
      * apply Qmult_le_compat_r; assumption.
      * rewrite Qmult_1_l. apply Qle_refl.
  - exists 0. split; [reflexivity | lia].
Qed.

(** ** Equalizer updates *)

Lemma count_events_app (f : Event -> bool) (t1 t2 : list Event) :
  count_events f (t1 ++ t2) = (count_events f t1 + count_events f t2)%nat.
Proof. unfold count_events. rewrite filter_app, length_app. reflexivity. Qed.

Lemma py_any_nonzero (gains : list Q) :
  Exists (fun g => ~ (g == 0)%Q) gains -> py_any gains = true.
Proof.
  induction 1 as [g gains Hg | g gains _ IH]; unfold py_any in *; simpl.
  - unfold truthy. destruct (Qeq_bool g 0) eqn:E; [|reflexivity].
    apply Qeq_bool_iff in E. contradiction.
  - rewrite IH. apply orb_true_r.
Qed.

Lemma set_amps_length (eq band : nat) (vals : list Q) :
  List.length (set_amps eq band vals) = List.length vals.
Proof.
  revert band. induction vals as [|v vals IH]; intros band; simpl;
    [reflexivity | rewrite IH; reflexivity].
Qed.

Lemma set_amps_nth (eq : nat) (vals : list Q) : forall band k val,
  nth_error vals k = Some val ->
  nth_error (set_amps eq band vals) k =
    Some (EqSetAmpAtIndex eq val (band + k)).
Proof.
  induction vals as [|v vals IH]; intros band k val Hk.
  - destruct k; discriminate.
  - destruct k as [|k]; simpl in *.
    + injection Hk as ->. rewrite Nat.add_0_r. reflexivity.
    + rewrite (IH (S band) k val Hk). f_equal. f_equal. lia.
Qed.

Lemma set_amps_count (f : Event -> bool) (eq : nat) (vals : list Q) :
  (forall e amp band, f (EqSetAmpAtIndex e amp band) = false) ->
  forall band, count_events f (set_amps eq band vals) = 0%nat.
Proof.
  intros Hf. unfold count_events.
  induction vals as [|v vals IH]; intros band; simpl; [reflexivity|].
  rewrite Hf. apply IH.
Qed.

(** What [update_eq_values] does, step by step. *)
Lemma update_eq_values_run (p : State) :
  update_eq_values p =
    let eq := next_handle p in
    (Returned tt, set_vlceq (Some eq) (set_next_handle (S eq) p),
     [EqRelease (_vlceq p); EqNewFromPreset 0 eq] ++
     (if py_any (_eq_values p) then set_amps eq 0 (_eq_values p) else []) ++
     match _vlcmp p with
     | Some mp => [SetEqualizer (mp_id mp) eq]
     | None => []
     end).
Proof.
  unfold update_eq_values, bind, get, modify, tell, ret. cbn.
  destruct (py_any (_eq_values p)); destruct (_vlcmp p); cbn;
    rewrite ?app_nil_r; reflexivity.
Qed.

(** X13. As soon as one gain is not zero, [update_eq_values] sets every band of
    the new equalizer, the zero ones included: band [k] receives the
    [k]-th gain, in order, after the allocation and before the equalizer
    is attached. *)
Theorem nonzero_gains_set_every_band (p : State) :
  Exists (fun g => ~ (g == 0)%Q) (_eq_values p) ->
  let eq := next_handle p in
  exists amps,
    trace_of (update_eq_values p) =
      [EqRelease (_vlceq p); EqNewFromPreset 0 eq] ++ amps ++
      match _vlcmp p with
      | Some mp => [SetEqualizer (mp_id mp) eq]
      | None => []
      end /\
    List.length amps = List.length (_eq_values p) /\
    forall band val,
      nth_error (_eq_values p) band = Some val ->
      nth_error amps band = Some (EqSetAmpAtIndex eq val band).
Proof.
  intros Hnz. apply py_any_nonzero in Hnz.
  rewrite update_eq_values_run. cbn zeta. rewrite Hnz.
  exists (set_amps (next_handle p) 0 (_eq_values p)).
  split; [reflexivity|]. split; [apply set_amps_length|].
  intros band val Hb. apply (set_amps_nth _ _ 0%nat band val Hb).
Qed.

(** X14. Two equalizer updates in a row (the handle held before them being an
    older one): two handles are allocated, the first is released exactly
    once, by the second update, and the second is held afterwards and has
    not been released. *)
Theorem second_update_releases_first_handle (p : State) :
  (forall h0, _vlceq p = Some h0 -> (h0 < next_handle p)%nat) ->
  let r := (update_eq_values ;; update_eq_values) p in
  let h := next_handle p in
  result_of r = Returned tt /\
  _vlceq (state_of r) = Some (S h) /\
  count_events is_eq_new (trace_of r) = 2%nat /\
  count_events (releases_eq h) (trace_of r) = 1%nat /\
  count_events (releases_eq (S h)) (trace_of r) = 0%nat.
Proof.
  intros Hold. cbn zeta.
  rewrite (bind_returned _ _ _ _ _ _ (update_eq_values_run p)).
  rewrite update_eq_values_run.
  cbn [result_of state_of trace_of fst snd next_handle _vlceq _vlcmp
       _eq_values set_vlceq set_next_handle].
  assert (Hamps : forall f e,
    (forall x amp band, f (EqSetAmpAtIndex x amp band) = false) ->
    count_events f
      (if py_any (_eq_values p) then set_amps e 0 (_eq_values p) else []) =
    0%nat).
  { intros f e Hf. destruct (py_any (_eq_values p)); [|reflexivity].
    apply set_amps_count. exact Hf. }
  assert (Hatt : forall f e,
    (forall m x, f (SetEqualizer m x) = false) ->
    count_events f
      (match _vlcmp p with
       | Some mp => [SetEqualizer (mp_id mp) e]
       | None => []
       end) = 0%nat).
  { intros f e Hf. destruct (_vlcmp p); [|reflexivity].
    unfold count_events. simpl. rewrite Hf. reflexivity. }
  split; [reflexivity|]. split; [reflexivity|].
  rewrite !count_events_app.
  rewrite !Hamps, !Hatt by reflexivity.
  split; [reflexivity|].
  assert (Hh : forall k, (next_handle p <= k)%nat ->
            count_events (releases_eq k)
              [EqRelease (_vlceq p); EqNewFromPreset 0 (next_handle p)] =
            0%nat).
  { intros k Hk. unfold count_events. simpl.
    destruct (_vlceq p) as [h0|] eqn:E; [|reflexivity].
    specialize (Hold h0 eq_refl).
    destruct (Nat.eqb_spec h0 k); [lia | reflexivity]. }
  rewrite !Hh by lia.
  unfold count_events. simpl.
  rewrite Nat.eqb_refl.
  destruct (Nat.eqb_spec (next_handle p) (S (next_handle p))); [lia|].
  split; reflexivity.
Qed.

(** ** Releasing the native player *)

(** X15. [_destroy] releases the native player whenever there is one, whatever
    state it reports; after [_stop] nothing is left for it to release.
    Stopping and then destroying therefore releases the native player at
    most once, and not at all when it reported a state other than Playing
    or Paused at the stop.  The runner is aborted in every case. *)
Theorem stop_then_destroy_releases_once (p : State) :
  trace_of (_destroy p) =
    match _vlcmp p with
    | Some mp => [Release (mp_id mp)]
    | None => []
    end ++ [RunnerAbort] /\
  trace_of ((_stop ;; _destroy) p) =
    match _vlcmp p with
    | Some mp =>
        if playing_or_paused (mp_state mp) then [Release (mp_id mp)] else []
    | None => []
    end ++ [RunnerAbort] /\
  _vlcmp (state_of (_destroy p)) = None /\
  _vlcmp (state_of ((_stop ;; _destroy) p)) = None.
Proof.
  assert (Hd : forall q,
    _destroy q =
      (Returned tt,
       match _vlcmp q with
       | Some _ => set_events None (set_vlcmp None q)
       | None => q
       end,
       match _vlcmp q with
       | Some mp => [Release (mp_id mp)]
       | None => []
       end ++ [RunnerAbort])).
  { intros q. unfold _destroy, bind, get, modify, tell, ret. cbn.
    destruct (_vlcmp q); reflexivity. }
  pose proof (_stop_run p) as Hs.
  destruct (_vlcmp p) as [mp|] eqn:Hmp.
  - rewrite (bind_returned _ _ _ _ _ _ Hs), !Hd, Hmp. cbn.
    destruct (playing_or_paused (mp_state mp)); repeat split; reflexivity.
  - rewrite (bind_returned _ _ _ _ _ _ Hs), !Hd, Hmp. cbn.
    repeat split; assumption.
Qed.

(** ** Changing the song *)

(** What [_play] does when a native player is present and a song set. *)
Lemma _play_reuse_run (seek : option Z) (p : State) (mp : MediaPlayer)
    (s : Song) :
  _vlcmp p = Some mp ->
  song p = Some s ->
  _play vlc_MediaPlayer seek p =
    (Returned tt, set_seekOnPlay seek p,
     [SetMrl (mp_id mp) (song_uri s); Play (mp_id mp)]).
Proof.
  intros Hmp Hs.
  unfold _play, song_uri_of, bind, get, modify, tell, ret.
  rewrite Hmp. cbn. rewrite Hs. cbn. rewrite Hmp. reflexivity.
Qed.

(** What [_end] does, up to the set-up of the next song. *)
Lemma _end_run (stopped : bool) (next : option Song) (p : State) :
  _end handlers vlc_MediaPlayer stopped next p =
    let pa := set_info None (set_song None p) in
    let pb := if py_is (song p) (info p) then pa
              else handlers (SigSongEnded (info p) stopped) pa in
    let pc := handlers (SigSongEnded (song p) stopped) pb in
    let te := (if py_is (song p) (info p) then []
               else [Emit (SigSongEnded (info p) stopped) pa]) ++
              [Emit (SigSongEnded (song p) stopped) pb] in
    let current := match next with
                   | None => source_current (_source pc)
                   | Some _ => next
                   end in
    let pd := set_info current (set_song current pc) in
    let k := match current with
             | Some _ => _play vlc_MediaPlayer None
             | None => _stop
             end in
    (result_of (k pd), state_of (k pd), te ++ trace_of (k pd)).
Proof.
  unfold _end, bind, get, modify, emit, ret. cbn.
  destruct (py_is (song p) (info p)); cbn;
    match goal with
    | |- context [match ?c with Some _ => _ | None => _ end ?st] =>
        destruct (match c with
                  | Some _ => _play vlc_MediaPlayer None
                  | None => _stop
                  end st) as [[o q] t]
    end; reflexivity.
Qed.

(** X16. When [_end] finds the source without a current song (handlers that
    leave the source alone assumed), the player goes idle: after
    [song-ended] the native player is dropped, no song and no native player
    remain, and nothing is created or started. *)
Theorem end_of_source_goes_idle (stopped : bool) (p : State) :
  keeps handlers _source ->
  source_current (_source p) = None ->
  let r := _end handlers vlc_MediaPlayer stopped None p in
  result_of r = Returned tt /\
  song (state_of r) = None /\
  info (state_of r) = None /\
  _vlcmp (state_of r) = None /\
  count_events is_play (trace_of r) = 0%nat /\
  count_events is_new_player (trace_of r) = 0%nat.
Proof.
  intros Hk Hsrc. unfold keeps in Hk. cbn zeta. rewrite _end_run. cbn zeta.
  assert (Hcur : forall sig q,
            source_current (_source (handlers sig q)) =
            source_current (_source q)).
  { intros sig q. rewrite Hk. reflexivity. }
  destruct (py_is (song p) (info p));
    rewrite ?Hcur; cbn [_source set_info set_song]; rewrite ?Hcur;
    cbn [_source set_info set_song]; rewrite Hsrc;
    rewrite _stop_run;
    match goal with
    | |- context [_vlcmp ?st] => destruct (_vlcmp st) as [mp|] eqn:Hmp
    end;
    cbn [result_of state_of trace_of fst snd];
    rewrite ?count_events_app;
    try (destruct (playing_or_paused (mp_state mp)));
    repeat split; try reflexivity; try exact Hmp.
Qed.

(** X17. [_end] called with a next song while a native player is present
    (handlers that keep the native player assumed), as when the user skips:
    the source is not consulted, [song-ended] is emitted with the [stopped]
    flag that was passed, and the next song is put on the same native
    player with [set_mrl] and started; no native player is released or
    created. *)
Theorem skip_reuses_native_player (stopped : bool) (b : Song) (p : State)
    (mp : MediaPlayer) :
  keeps handlers _vlcmp ->
  _vlcmp p = Some mp ->
  let r := _end handlers vlc_MediaPlayer stopped (Some b) p in
  result_of r = Returned tt /\
  song (state_of r) = Some b /\
  info (state_of r) = Some b /\
  _vlcmp (state_of r) = Some mp /\
  exists te,
    trace_of r = te ++ [SetMrl (mp_id mp) (song_uri b); Play (mp_id mp)] /\
    map fst (emissions te) =
      (if py_is (song p) (info p) then []
       else [SigSongEnded (info p) stopped]) ++
      [SigSongEnded (song p) stopped] /\
    count_events is_release te = 0%nat /\
    count_events is_new_player te = 0%nat.
Proof.
  intros Hk Hmp. unfold keeps in Hk. cbn zeta. rewrite _end_run.
  cbn beta iota zeta.
  set (pa := set_info None (set_song None p)).
  set (pb := if py_is (song p) (info p) then pa
             else handlers (SigSongEnded (info p) stopped) pa).
  set (pc := handlers (SigSongEnded (song p) stopped) pb).
  set (pd := set_info (Some b) (set_song (Some b) pc)).
  assert (Hpd : _vlcmp pd = Some mp).
  { subst pd pc pb pa. cbn. rewrite Hk.
    destruct (py_is (song p) (info p)); rewrite ?Hk; exact Hmp. }
  rewrite (_play_reuse_run None pd mp b Hpd eq_refl).
  cbn [result_of state_of trace_of fst snd].
  split; [reflexivity|]. split; [reflexivity|]. split; [reflexivity|].
  split; [exact Hpd|].
  eexists. split; [reflexivity|].
  destruct (py_is (song p) (info p)); repeat split; reflexivity.
Qed.

(** X18. The handler of the native "end-reached" event, when the source has a
    next song (handlers that keep the native player and the source
    assumed): the old native player is dropped first, released only if it
    reported Playing or Paused, and the next song always gets a newly
    created native player, which is started; [set_mrl] is never used on
    this path. *)
Theorem ended_always_creates_player (p : State) (b : Song) :
  keeps handlers _vlcmp ->
  keeps handlers _source ->
  source_current (source_next_ended (_source p)) = Some b ->
  let r := _event_ended_sync handlers vlc_MediaPlayer p in
  result_of r = Returned tt /\
  song (state_of r) = Some b /\
  (exists handle,
     _vlcmp (state_of r) = Some (vlc_MediaPlayer handle (song_uri b))) /\
  count_events is_set_mrl (trace_of r) = 0%nat /\
  count_events is_new_player (trace_of r) = 1%nat /\
  count_events is_play (trace_of r) = 1%nat /\
  count_events is_release (trace_of r) =
    match _vlcmp p with
    | Some mp => if playing_or_paused (mp_state mp) then 1%nat else 0%nat
    | None => 0%nat
    end.
Proof.
  intros Hk1 Hk2 Hb. unfold keeps in Hk1, Hk2. cbn zeta.
  set (ps := match _vlcmp p with
             | Some _ => set_events None (set_vlcmp None p)
             | None => p
             end).
  set (ts := match _vlcmp p with
             | Some mp =>
                 if playing_or_paused (mp_state mp)
                 then [Release (mp_id mp)] else []
             | None => []
             end).
  assert (Hs : _stop p = (Returned tt, ps, ts)).
  { rewrite _stop_run. subst ps ts. destruct (_vlcmp p); reflexivity. }
  assert (Hps : _vlcmp ps = None /\ _source ps = _source p).
  { subst ps. destruct (_vlcmp p) eqn:E; cbn; auto. }
  destruct Hps as [Hps1 Hps2].
  set (pn := set_source (source_next_ended (_source ps)) ps).
  assert (Hrun : _event_ended_sync handlers vlc_MediaPlayer p =
    (result_of (_end handlers vlc_MediaPlayer false None pn),
     state_of (_end handlers vlc_MediaPlayer false None pn),
     ts ++ SourceNextEnded ::
       trace_of (_end handlers vlc_MediaPlayer false None pn))).
  { unfold _event_ended_sync. unfold bind at 1. rewrite Hs.
    unfold bind, get, modify, tell. fold pn.
    destruct (_end handlers vlc_MediaPlayer false None pn) as [[o q] t].
    reflexivity. }
  rewrite Hrun, _end_run. cbn zeta.
  set (pa := set_info None (set_song None pn)).
  set (pb := if py_is (song pn) (info pn) then pa
             else handlers (SigSongEnded (info pn) false) pa).
  set (pc := handlers (SigSongEnded (song pn) false) pb).
  assert (Hpb : _vlcmp pb = None /\ _source pb = _source pn).
  { subst pb. destruct (py_is (song pn) (info pn));
      rewrite ?Hk1, ?Hk2; subst pa; cbn; auto. }
  destruct Hpb as [Hpb1 Hpb2].
  assert (Hcur : source_current (_source pc) = Some b).
  { subst pc. rewrite Hk2, Hpb2. subst pn. cbn. rewrite Hps2. exact Hb. }
  rewrite Hcur.
  set (pd := set_info (Some b) (set_song (Some b) pc)).
  assert (Hpd : _vlcmp pd = None).
  { subst pd pc. cbn. rewrite Hk1. exact Hpb1. }
  rewrite (_play_new_run None pd b Hpd eq_refl). cbn zeta.
  cbn [result_of state_of trace_of fst snd].
  split; [reflexivity|]. split; [reflexivity|].
  split; [eexists; reflexivity|].
  assert (Hts : count_events is_set_mrl ts = 0%nat /\
                count_events is_new_player ts = 0%nat /\
                count_events is_play ts = 0%nat /\
                count_events is_release ts =
                  match _vlcmp p with
                  | Some mp =>
                      if playing_or_paused (mp_state mp) then 1%nat
                      else 0%nat
                  | None => 0%nat
                  end).
  { subst ts. destruct (_vlcmp p) as [mp|]; [|repeat split; reflexivity].
    destruct (playing_or_paused (mp_state mp)); repeat split; reflexivity. }
  destruct Hts as (T1 & T2 & T3 & T4).
  rewrite !count_events_app, T1, T2, T3, T4.
  destruct (py_is (song pn) (info pn)); destruct (_vlceq pd);
    cbn; rewrite ?Nat.add_0_r; repeat split; reflexivity.
Qed.

(** X19. Dropping the native player and starting the current song again keeps
    what the object stores (volume, pause flag, equalizer handle and
    values) and attaches the equalizer in use to the new native player;
    the new native player is told neither the volume nor the pause
    flag. *)
Theorem recreated_player_gets_equalizer (seek : option Z) (p : State)
    (s : Song) (eq : nat) :
  song p = Some s ->
  _vlceq p = Some eq ->
  let r := (_stop ;; _play vlc_MediaPlayer seek) p in
  let mp := vlc_MediaPlayer (next_handle p) (song_uri s) in
  result_of r = Returned tt /\
  _vlcmp (state_of r) = Some mp /\
  In (SetEqualizer (mp_id mp) eq) (trace_of r) /\
  (_volume (state_of r) = _volume p /\
   _paused (state_of r) = _paused p /\
   _vlceq (state_of r) = Some eq /\
   _eq_preamp (state_of r) = _eq_preamp p /\
   _eq_values (state_of r) = _eq_values p) /\
  count_events is_volume_push (trace_of r) = 0%nat /\
  count_events is_set_pause (trace_of r) = 0%nat.
Proof.
  intros Hs Heq. cbn zeta.
  pose proof (_stop_run p) as Hstop.
  destruct (_vlcmp p) as [mp0|] eqn:Hmp.
  - rewrite (bind_returned _ _ _ _ _ _ Hstop).
    rewrite (_play_new_run seek (set_events None (set_vlcmp None p)) s
               eq_refl Hs).
    cbn. rewrite Heq.
    destruct (playing_or_paused (mp_state mp0)); cbn;
      repeat split; auto 10.
  - rewrite (bind_returned _ _ _ _ _ _ Hstop).
    rewrite (_play_new_run seek p s Hmp Hs).
    cbn. rewrite Heq. cbn. repeat split; auto 10.
Qed.

(** ** What never reaches the native player *)

Lemma never_ret (bad : Event -> bool) {A} (a : A) : never bad (ret a).
Proof. intros p. reflexivity. Qed.

Lemma never_get (bad : Event -> bool) : never bad get.
Proof. intros p. reflexivity. Qed.

Lemma never_modify (bad : Event -> bool) (f : State -> State) :
  never bad (modify f).
Proof. intros p. reflexivity. Qed.

Lemma never_raise (bad : Event -> bool) {A} (e : Exn) :
  never bad (@raise A e).
Proof. intros p. reflexivity. Qed.

Lemma never_tell (bad : Event -> bool) (t : list Event) :
  existsb bad t = false -> never bad (tell t).
Proof. intros Ht p. exact Ht. Qed.

Lemma never_emit (bad : Event -> bool) (sig : Signal) :
  (forall s seen, bad (Emit s seen) = false) ->
  never bad (emit handlers sig).
Proof. intros Hb p. unfold emit. cbn. rewrite Hb. reflexivity. Qed.

Lemma never_bind (bad : Event -> bool) {A B} (m : M A) (k : A -> M B) :
  never bad m -> (forall a, never bad (k a)) -> never bad (bind m k).
Proof.
  intros Hm Hk p. unfold bind.
  specialize (Hm p). destruct (m p) as [[[a|e] p1] t1]; cbn in *.
  - specialize (Hk a p1). destruct (k a p1) as [[o p2] t2]; cbn in *.
    rewrite existsb_app, Hm, Hk. reflexivity.
  - exact Hm.
Qed.

Ltac never_step :=
  first
    [ apply never_ret | apply never_get | apply never_modify
    | apply never_raise
    | apply never_tell; reflexivity
    | apply never_emit; reflexivity
    | apply never_bind; [|intros ?]
    | match goal with
      | |- never _ (match ?x with _ => _ end) => destruct x
      end ].

Ltac never_solve := repeat never_step.

Lemma never_push_paused_setter (b : bool) :
  never is_volume_push (paused_setter handlers b).
Proof. unfold paused_setter. never_solve. Qed.

Lemma never_push_play (seek : option Z) :
  never is_volume_push (_play vlc_MediaPlayer seek).
Proof. unfold _play, song_uri_of. never_solve. Qed.

Lemma never_push_stop : never is_volume_push _stop.
Proof. unfold _stop. never_solve. Qed.

Lemma never_push_playing :
  never is_volume_push (_event_playing_sync handlers).
Proof.
  unfold _event_playing_sync, set_position_ms.
  repeat first [apply never_push_paused_setter | never_step].
Qed.

Lemma never_push_ended :
  never is_volume_push (_event_ended_sync handlers vlc_MediaPlayer).
Proof.
  unfold _event_ended_sync, _end.
  repeat first [apply never_push_stop | apply never_push_play | never_step].
Qed.

Lemma never_push_seek (position : Z) :
  never is_volume_push (seek handlers vlc_MediaPlayer position).
Proof.
  unfold seek, set_position_ms.
  repeat first [apply never_push_play | never_step].
Qed.

(** X20. Of all the calls of the player only the [volume] property sends a
    volume to the native player: pausing, seeking, equalizer updates, the
    change from one song to the next and a deferred seek never do,
    whatever the handlers and the native player do.  A native player
    created for a new song is thus left at the volume it comes with. *)
Theorem volume_is_pushed_by_nothing_else (b : bool) (position : Z)
    (f : MediaPlayer -> MediaPlayer) :
  never is_volume_push (paused_setter handlers b) /\
  never is_volume_push (seek handlers vlc_MediaPlayer position) /\
  never is_volume_push update_eq_values /\
  never is_volume_push (song_change handlers vlc_MediaPlayer f) /\
  never is_volume_push
    (seek_then_playing handlers vlc_MediaPlayer position f).
Proof.
  split; [apply never_push_paused_setter|].
  split; [apply never_push_seek|].
  split.
  { intros p. rewrite update_eq_values_run. cbn.
    assert (Ha : forall e n l, existsb is_volume_push (set_amps e n l) = false).
    { intros e n l. revert n. induction l; intros n; simpl; auto. }
    destruct (py_any (_eq_values p)); destruct (_vlcmp p);
      rewrite ?existsb_app, ?Ha; reflexivity. }
  split.
  - unfold song_change, callback_for, backend_moves.
    repeat first [apply never_push_ended | apply never_push_playing
                 | never_step].
  - unfold seek_then_playing, callback_for, backend_moves.
    repeat first [apply never_push_seek | apply never_push_playing
                 | never_step].
Qed.

(** ** Equalizer presets *)

Variable band_count : nat.
Variable band_frequency : nat -> Q.
Variable preset_count : nat.
Variable preset_name : nat -> string.
Variable preset_preamp : nat -> Q.
Variable preset_amp : nat -> nat -> Q.

(** The loop of [eq_preset_list]: the presets it returns, the handles it
    goes through and what it leaves of the player. *)
Lemma presets_from_run (presets : list nat) : forall p,
  exists q,
    presets_from band_count preset_name preset_preamp preset_amp presets p =
      (Returned
         (map (fun i =>
                 mkEqualizerPreset ("VLC: " ++ preset_name i)
                   (map (preset_amp i) (seq 0 band_count))
                   (preset_preamp i)) presets),
       q,
       flat_map (fun ih => [EqNewFromPreset (fst ih) (snd ih);
                            EqRelease (Some (snd ih))])
         (combine presets
            (seq (next_handle p) (List.length presets)))) /\
    next_handle q = (next_handle p + List.length presets)%nat /\
    _vlceq q = _vlceq p /\ _vlcmp q = _vlcmp p /\
    _eq_values q = _eq_values p /\ _eq_preamp q = _eq_preamp p.
Proof.
  induction presets as [|i rest IH]; intros p.
  - exists p. cbn. rewrite Nat.add_0_r. repeat split; reflexivity.
  - destruct (IH (set_next_handle (S (next_handle p)) p))
      as (q & Hrun & Hn & H1 & H2 & H3 & H4).
    exists q. split.
    + cbn [presets_from]. unfold bind, get, modify, tell, ret.
      rewrite Hrun. cbn. rewrite app_nil_r. reflexivity.
    + cbn in *. rewrite Hn. repeat split; try assumption. lia.
Qed.

(** X21. Listing the presets leaks no native equalizer: every equalizer
    allocated to read a preset is released right after, before the next
    one is allocated, and the equalizer in use and the native player are
    left alone. *)
Theorem preset_listing_releases_each_handle (p : State) :
  let r := eq_preset_list band_count preset_count preset_name preset_preamp
             preset_amp p in
  trace_of r =
    flat_map (fun ih => [EqNewFromPreset (fst ih) (snd ih);
                         EqRelease (Some (snd ih))])
      (combine (seq 0 preset_count) (seq (next_handle p) preset_count)) /\
  _vlceq (state_of r) = _vlceq p /\
  _vlcmp (state_of r) = _vlcmp p.
Proof.
  cbn zeta. unfold eq_preset_list.
  destruct (presets_from_run (seq 0 preset_count) p)
    as (q & Hrun & _ & H1 & H2 & _).
  rewrite Hrun. cbn [trace_of state_of fst snd].
  rewrite length_seq. repeat split; assumption.
Qed.

(** X22. The preset list has one entry per native preset, in order; entry [i]
    is labelled ["VLC: "] followed by the native name and carries the
    native preamp and one gain per band, as many as [eq_bands] lists
    frequencies. *)
Theorem presets_match_bands (p : State) :
  exists presets bands,
    result_of (eq_preset_list band_count preset_count preset_name
                 preset_preamp preset_amp p) = Returned presets /\
    result_of (eq_bands band_count band_frequency p) = Returned bands /\
    List.length presets = preset_count /\
    List.length bands = band_count /\
    Forall (fun e => List.length (preset_bands e) = List.length bands)
      presets /\
    forall i,
      (i < preset_count)%nat ->
      exists e,
        nth_error presets i = Some e /\
        preset_label e = ("VLC: " ++ preset_name i)%string /\
        preset_gain e = preset_preamp i /\
        forall band,
          (band < band_count)%nat ->
          nth_error (preset_bands e) band = Some (preset_amp i band).
Proof.
  unfold eq_preset_list, eq_bands.
  destruct (presets_from_run (seq 0 preset_count) p) as (q & Hrun & _).
  rewrite Hrun. eexists _, _.
  split; [reflexivity|]. split; [reflexivity|].
  split; [rewrite length_map, length_seq; reflexivity|].
  split; [rewrite length_map, length_seq; reflexivity|].
  split.
  - apply Forall_map. apply Forall_forall. intros i _. cbn.
    rewrite !length_map, !length_seq. reflexivity.
  - intros i Hi. eexists. split.
    + rewrite nth_error_map, nth_error_seq.
      apply Nat.ltb_lt in Hi. rewrite Hi. reflexivity.
    + cbn. split; [reflexivity|]. split; [reflexivity|].
      intros band Hb. rewrite nth_error_map, nth_error_seq.
      apply Nat.ltb_lt in Hb. rewrite Hb. reflexivity.
Qed.

(** ** Seeking while the native player is not ready *)

(** X23. A seek made while the native player reports neither Paused nor
    Playing restarts it ([stop], then [play]) without emitting anything,
    whatever length is reported; the seek is carried out when the
    "playing" event arrives (handlers that keep the stored seek, the
    native player and the song assumed; the player seekable and with a
    length by then): [song-started] is emitted again, then [seek] with
    the position asked for, and nothing stays stored.  No native player
    is created. *)
Theorem seek_before_ready_restarts_and_seeks (position : Z)
    (f : MediaPlayer -> MediaPlayer) (p : State) (mp : MediaPlayer) :
  keeps handlers _seekOnPlay -> keeps handlers _vlcmp ->
  keeps handlers song ->
  _vlcmp p = Some mp ->
  playing_or_paused (mp_state mp) = false ->
  mp_is_seekable (f mp) = true ->
  mp_length (f mp) <> 0 ->
  let r := seek_then_playing handlers vlc_MediaPlayer position f p in
  result_of r = Returned tt /\
  _seekOnPlay (state_of r) = None /\
  exists t,
    trace_of r = Stop (mp_id mp) :: Play (mp_id mp) :: t /\
    map fst (emissions t) =
      [SigSongStarted (song p); SigNotify "seekable";
       SigSeek (song p) position] /\
    In (SetPosition (mp_id (f mp))
          (inject_Z position / inject_Z (mp_length (f mp)))%Q) t /\
    count_events is_play t = 0%nat /\
    count_events is_new_player (trace_of r) = 0%nat.
Proof.
  intros Hk1 Hk2 Hk3 Hmp Hst Hsk Hlen.
  pose proof (seek_not_ready_run position p mp Hmp Hst) as Hseek.
  set (q0 := set_seekOnPlay (Some position) p) in *.
  set (q1 := set_vlcmp (Some (f mp)) q0).
  destruct (playing_pending_seek_run q1 position (f mp) Hk1 Hk2 Hk3
              eq_refl eq_refl Hsk Hlen) as (q' & t & Hrun & Hem & Hin & Hpl).
  assert (Hall :
    seek_then_playing handlers vlc_MediaPlayer position f p =
      (Returned tt, set_seekOnPlay None q',
       [Stop (mp_id mp); Play (mp_id mp)] ++ t)).
  { unfold seek_then_playing, callback_for.
    unfold bind at 1. rewrite Hseek.
    unfold backend_moves. unfold bind at 1. unfold modify at 1.
    replace (set_vlcmp (option_map f (_vlcmp q0)) q0) with q1
      by (subst q1 q0; cbn; rewrite Hmp; reflexivity).
    rewrite Hrun. reflexivity. }
  cbn zeta. rewrite Hall. cbn [result_of state_of trace_of fst snd app].
  split; [reflexivity|]. split; [reflexivity|].
  exists t. split; [reflexivity|]. split; [exact Hem|].
  split; [exact Hin|]. split; [exact Hpl|].
  unfold count_events in *. cbn.
  assert (Hnew : forall q, filter is_new_player
            (trace_of (_event_playing_sync handlers q)) = []).
  { intros q. rewrite playing_run. cbn zeta.
    unfold pause_reapplied_call.
    repeat match goal with
           | |- context [match ?x with _ => _ end] => destruct x
           end; reflexivity. }
  specialize (Hnew q1). rewrite Hrun in Hnew. cbn in Hnew.
  rewrite Hnew. reflexivity.
Qed.

End Properties.

(** * The properties at concrete inputs *)

Lemma unpausing_creates_no_player (sig : Signal) (q : State) :
  _vlcmp q = None -> _vlcmp (unpausing sig q) = None.
Proof. intros H. destruct sig; exact H. Defined.

(** C4 at work: no native player, the flag not set, and a handler that
    clears the flag whenever it hears [paused]. *)
Lemma idle_pause_flag_stays_true_witness :
  (forall sig q, _vlcmp q = None -> _vlcmp (unpausing sig q) = None) /\
  _vlcmp dropped_state = None /\
  _paused dropped_state = false /\
  Forall (fun q => _paused q = true)
    (pause_calls unpausing [false; true; false] dropped_state).
Proof.
  split; [exact unpausing_creates_no_player|].
  split; [reflexivity|]. split; [reflexivity|].
  apply (idle_pause_flag_stays_true unpausing [false; true; false]
           dropped_state unpausing_creates_no_player eq_refl).
Defined.

(** C9 at work: a quarter into a ten second item, no player, and a player
    that has stopped. *)
Lemma get_position_zero_unless_active_witness :
  get_position (active_state Playing) =
    (Returned 2500, active_state Playing, []) /\
  get_position idle_state = (Returned 0, idle_state, []) /\
  get_position (active_state Stopped) =
    (Returned 0, active_state Stopped, []).
Proof.
  split; [|split].
  - exact (proj2 (proj2 (get_position_zero_unless_active
             (active_state Playing))) (running_player Playing) eq_refl
             (or_introl eq_refl)).
  - exact (proj1 (get_position_zero_unless_active idle_state) eq_refl).
  - refine (proj1 (proj2 (get_position_zero_unless_active
              (active_state Stopped))) (running_player Stopped) eq_refl
              _ _); discriminate.
Defined.

(** C8 at work: stopping while the native player reports Playing. *)
Lemma stop_releases_only_when_active_witness :
  pausing_stop (active_state Playing) =
    (Returned tt, set_paused_field true (active_state Playing),
     [Emit SigPaused (set_paused_field true (active_state Playing));
      SetPause 7 true]) /\
  _vlcmp (set_paused_field true (active_state Playing)) =
    Some (running_player Playing) /\
  trace_of (stop pausing_stop (active_state Playing)) =
    [Emit SigPaused (set_paused_field true (active_state Playing));
     SetPause 7 true; Release 7] /\
  _vlcmp (state_of (stop pausing_stop (active_state Playing))) = None.
Proof.
  split; [reflexivity|]. split; [reflexivity|].
  destruct (stop_releases_only_when_active pausing_stop
              (active_state Playing)
              (set_paused_field true (active_state Playing))
              [Emit SigPaused (set_paused_field true (active_state Playing));
               SetPause 7 true]
              (running_player Playing) eq_refl eq_refl) as [Hrun Hnone].
  split; [rewrite Hrun; reflexivity | exact Hnone].
Defined.

(** C3 at work: volume 3/16 without replaygain is pushed as 18, and the
    double written 0.29 as 28, its product with 100 being the double just
    below 29. *)
Lemma volume_pushed_truncated_and_capped_witness :
  _vlcmp (active_state Playing) = Some (running_player Playing) /\
  double_in_range (float_mul (3 # 16) 100) /\
  double_in_range (float_mul double_0_29 100) /\
  do_set_property no_replaygain "volume" (VFloat (3 # 16))
    (active_state Playing) =
    (Returned tt, set_volume_field (VFloat (3 # 16)) (active_state Playing),
     [AudioSetVolume 7 18]) /\
  do_set_property no_replaygain "volume" (VFloat double_0_29)
    (active_state Playing) =
    (Returned tt, set_volume_field (VFloat double_0_29) (active_state Playing),
     [AudioSetVolume 7 28]).
Proof.
  assert (H1 : double_in_range (float_mul (3 # 16) 100)) by reflexivity.
  assert (H2 : double_in_range (float_mul double_0_29 100)) by reflexivity.
  split; [reflexivity|]. split; [exact H1|]. split; [exact H2|].
  split.
  - exact (proj1 (volume_pushed_truncated_and_capped no_replaygain (3 # 16)
                    (active_state Playing) (running_player Playing) eq_refl
                    H1)).
  - exact (proj1 (volume_pushed_truncated_and_capped no_replaygain
                    double_0_29 (active_state Playing)
                    (running_player Playing) eq_refl H2)).
Defined.

(** C3 as written fails: at volume 3/16 with identity scaling the scaled
    value times 100 is 18.75; the code pushes 18, the formula of the claim
    gives 19. *)
Lemma volume_is_truncated_not_rounded :
  (0 <= 3 # 16 <= 1)%Q /\
  _vlcmp (active_state Playing) = Some (running_player Playing) /\
  trace_of (do_set_property no_replaygain "volume" (VFloat (3 # 16))
              (active_state Playing)) = [AudioSetVolume 7 18] /\
  spec_native_volume
    (no_replaygain (set_volume_field (VFloat (3 # 16)) (active_state Playing))
       (3 # 16)) = 19.
Proof.
  split; [split; discriminate|]. repeat split; reflexivity.
Qed.

(** C1 at work: the same call on the state used against the claim. *)
Lemma play_reuses_present_player_witness :
  song next_up_state = Some song_B /\
  _play blank_player None next_up_state =
    (Returned tt, set_seekOnPlay None next_up_state,
     [SetMrl 7 "file:///b.ogg"; Play 7]).
Proof.
  split; [reflexivity|].
  exact (play_reuses_present_player blank_player None next_up_state song_B
           eq_refl).
Defined.

(** C1 as written fails: with native player 7 present, [_play] sends it
    [set_mrl] and [play]; the player object is kept, none is released and
    none is created. *)
Lemma play_keeps_present_player :
  _vlcmp next_up_state = Some (running_player Playing) /\
  trace_of (_play blank_player None next_up_state) =
    [SetMrl 7 "file:///b.ogg"; Play 7] /\
  _vlcmp (state_of (_play blank_player None next_up_state)) =
    Some (running_player Playing) /\
  ~ In (Release 7) (trace_of (_play blank_player None next_up_state)) /\
  (forall mp mrl,
     ~ In (MediaPlayerNew mp mrl)
         (trace_of (_play blank_player None next_up_state))).
Proof.
  repeat split; try reflexivity.
  - cbn. intros [H | [H | []]]; discriminate.
  - cbn. intros mp mrl [H | [H | []]]; discriminate.
Qed.

(** C2 at work. *)
Lemma flat_gains_set_no_band_and_no_preamp_witness :
  Forall (fun g => (g == 0)%Q) (_eq_values flat_eq_state) /\
  trace_of (update_eq_values flat_eq_state) =
    [EqRelease (Some 4%nat); EqNewFromPreset 0 5] /\
  trace_of (eq_preamp_setter (3 # 1)
              (state_of (update_eq_values flat_eq_state))) =
    [EqSetPreamp 5 (3 # 1)].
Proof.
  assert (Hz : Forall (fun g => (g == 0)%Q) (_eq_values flat_eq_state)).
  { repeat constructor. }
  split; [exact Hz|].
  destruct (flat_gains_set_no_band_and_no_preamp flat_eq_state (3 # 1) Hz)
    as (_ & Htrace & _ & _ & Hpre).
  split; [exact Htrace | exact Hpre].
Defined.

(** C2 as written fails: with preamp 3 stored and three zero gains,
    [update_eq_values] allocates handle 5 and sends it nothing; the
    stored preamp is not applied to it. *)
Lemma flat_update_applies_no_preamp :
  Forall (fun g => (g == 0)%Q) (_eq_values flat_eq_state) /\
  _eq_preamp flat_eq_state = 3%Q /\
  trace_of (update_eq_values flat_eq_state) =
    [EqRelease (Some 4%nat); EqNewFromPreset 0 5] /\
  _vlceq (state_of (update_eq_values flat_eq_state)) = Some 5%nat /\
  (forall preamp,
     ~ In (EqSetPreamp 5 preamp) (trace_of (update_eq_values flat_eq_state))).
Proof.
  split; [repeat constructor|].
  repeat split; try reflexivity.
  cbn. intros preamp [H | [H | []]]; discriminate.
Qed.

(** C7 at work: seeking to 2.5 s while the native player is paused. *)
Lemma seek_active_keeps_pause_flag_witness :
  _vlcmp (active_state Paused) = Some (running_player Paused) /\
  (forall sig q, _paused (watching sig q) = _paused q) /\
  _paused (state_of (seek watching blank_player 2500 (active_state Paused))) =
    _paused (active_state Paused) /\
  trace_of (seek watching blank_player 2500 (active_state Paused)) =
    [SetPosition 7 (inject_Z 2500 / inject_Z 10000)%Q;
     Emit (SigSeek (Some song_A) 2500) (active_state Paused)].
Proof.
  split; [reflexivity|]. split; [reflexivity|].
  exact (seek_active_keeps_pause_flag watching blank_player 2500
           (active_state Paused) (running_player Paused) eq_refl
           (or_introl eq_refl) (fun _ _ => eq_refl)).
Defined.

(** C6 at work: [song_A] ends on a source of two items. *)
Lemma song_ended_on_cleared_song_before_started_witness :
  song (active_state Ended) = Some song_A /\
  source_current (source_next_ended (_source (active_state Ended))) =
    Some song_B /\
  exists seen0 seenA seenB rest,
    emissions (trace_of (song_change watching blank_player starts_playing
                           (active_state Ended))) =
      (if py_is (song (active_state Ended)) (info (active_state Ended))
       then [] else [(SigSongEnded (info (active_state Ended)) false, seen0)])
      ++ (SigSongEnded (Some song_A) false, seenA) ::
         (SigSongStarted (Some song_B), seenB) :: rest /\
    song seen0 = None /\
    song seenA = None /\
    forallb not_song_ended rest = true.
Proof.
  split; [reflexivity|]. split; [reflexivity|].
  exact (song_ended_on_cleared_song_before_started watching blank_player
           starts_playing (active_state Ended) song_A song_B
           (fun _ _ => eq_refl) (fun _ _ => eq_refl) eq_refl eq_refl).
Defined.

(** C5 at work: the first [paused = True] on a playing player emits
    [paused] once, a second one emits nothing. *)
Example repeated_pause_emits_once :
  emissions (trace_of (paused_setter watching true (active_state Playing))) =
    [(SigPaused, set_paused_field true (active_state Playing))] /\
  emissions
    (trace_of
       (paused_setter watching true
          (state_of (paused_setter watching true (active_state Playing))))) =
    [].
Proof. split; reflexivity. Qed.

(** C10 at work: a song set and no native player, and [seekable] is
    true. *)
Example seekable_without_player :
  _vlcmp (set_song (Some song_A) idle_state) = None /\
  result_of (do_get_property "seekable" (set_song (Some song_A) idle_state)) =
    Returned (VBool true).
Proof. split; reflexivity. Qed.

(** * The further properties at concrete inputs *)

Lemma watching_keeps {A} (field : State -> A) : keeps watching field.
Proof. intros sig q. reflexivity. Defined.

Lemma unpausing_keeps_player : keeps unpausing _vlcmp.
Proof. intros sig q. destruct sig; reflexivity. Defined.

Lemma seek_without_player_witness :
  _vlcmp selected_state = None /\
  result_of (seek watching blank_player 2500 selected_state) = Returned tt /\
  _seekOnPlay (state_of (seek watching blank_player 2500 selected_state)) =
    Some 2500 /\
  emissions (trace_of (seek watching blank_player 2500 selected_state)) =
    [] /\
  last (trace_of (seek watching blank_player 2500 selected_state))
    RunnerAbort = Play 0.
Proof.
  split; [reflexivity|].
  destruct (seek_without_player watching blank_player 2500 selected_state
              eq_refl) as (H1 & _ & H3 & H4 & _ & H6).
  repeat split; assumption.
Defined.

Lemma seek_before_ready_restarts_and_seeks_witness :
  _vlcmp (active_state Opening) = Some (running_player Opening) /\
  playing_or_paused (mp_state (running_player Opening)) = false /\
  mp_is_seekable (starts_playing (running_player Opening)) = true /\
  mp_length (starts_playing (running_player Opening)) <> 0 /\
  _seekOnPlay
    (state_of
       (seek_then_playing watching blank_player 2500 starts_playing
          (active_state Opening))) = None /\
  exists t,
    trace_of
      (seek_then_playing watching blank_player 2500 starts_playing
         (active_state Opening)) = Stop 7 :: Play 7 :: t /\
    map fst (emissions t) =
      [SigSongStarted (Some song_A); SigNotify "seekable";
       SigSeek (Some song_A) 2500].
Proof.
  assert (Hlen : mp_length (starts_playing (running_player Opening)) <> 0)
    by (intros H; discriminate H).
  split; [reflexivity|]. split; [reflexivity|]. split; [reflexivity|].
  split; [exact Hlen|].
  destruct (seek_before_ready_restarts_and_seeks watching blank_player 2500
              starts_playing (active_state Opening) (running_player Opening)
              (watching_keeps _) (watching_keeps _) (watching_keeps _)
              eq_refl eq_refl eq_refl Hlen)
    as (_ & H2 & t & H3 & H4 & _).
  split; [exact H2|]. exists t. split; assumption.
Defined.

Lemma playing_performs_pending_seek_witness :
  _seekOnPlay (pending_seek_state (running_player Playing)) = Some 2500 /\
  _vlcmp (pending_seek_state (running_player Playing)) =
    Some (running_player Playing) /\
  mp_is_seekable (running_player Playing) = true /\
  mp_length (running_player Playing) <> 0 /\
  map fst
    (emissions
       (trace_of
          (_event_playing_sync watching
             (pending_seek_state (running_player Playing))))) =
    [SigSongStarted (Some song_A); SigNotify "seekable";
     SigSeek (Some song_A) 2500] /\
  _seekOnPlay
    (state_of
       (_event_playing_sync watching
          (pending_seek_state (running_player Playing)))) = None.
Proof.
  assert (Hlen : mp_length (running_player Playing) <> 0)
    by (intros H; discriminate H).
  split; [reflexivity|]. split; [reflexivity|]. split; [reflexivity|].
  split; [exact Hlen|].
  destruct (playing_performs_pending_seek watching
              (pending_seek_state (running_player Playing)) 2500
              (running_player Playing)
              (watching_keeps _) (watching_keeps _) (watching_keeps _)
              eq_refl eq_refl eq_refl Hlen) as (_ & H2 & _ & H4).
  split; assumption.
Defined.

Lemma deferred_seek_is_performed_witness :
  _vlcmp selected_state = None /\
  song selected_state = Some song_A /\
  mp_is_seekable (starts_playing (blank_player 0 "file:///a.ogg")) = true /\
  mp_length (starts_playing (blank_player 0 "file:///a.ogg")) <> 0 /\
  map fst
    (emissions
       (trace_of
          (seek_then_playing watching blank_player 2500 starts_playing
             selected_state))) =
    [SigSongStarted (Some song_A); SigNotify "seekable";
     SigSeek (Some song_A) 2500] /\
  In (SetPosition 0 (inject_Z 2500 / inject_Z 10000)%Q)
    (trace_of
       (seek_then_playing watching blank_player 2500 starts_playing
          selected_state)).
Proof.
  assert (Hlen : mp_length (starts_playing (blank_player 0 "file:///a.ogg"))
                 <> 0) by (intros H; discriminate H).
  split; [reflexivity|]. split; [reflexivity|]. split; [reflexivity|].
  split; [exact Hlen|].
  destruct (deferred_seek_is_performed watching blank_player 2500
              starts_playing selected_state song_A
              (watching_keeps _) (watching_keeps _) (watching_keeps _)
              eq_refl eq_refl eq_refl Hlen) as (_ & H2 & H3 & _).
  split; assumption.
Defined.

Lemma playing_keeps_seek_when_unseekable_witness :
  _seekOnPlay (pending_seek_state unseekable_player) = Some 2500 /\
  _vlcmp (pending_seek_state unseekable_player) = Some unseekable_player /\
  mp_is_seekable unseekable_player = false /\
  result_of
    (_event_playing_sync watching (pending_seek_state unseekable_player)) =
    Returned tt /\
  _seekOnPlay
    (state_of
       (_event_playing_sync watching
          (pending_seek_state unseekable_player))) = Some 2500.
Proof.
  split; [reflexivity|]. split; [reflexivity|]. split; [reflexivity|].
  destruct (playing_keeps_seek_when_unseekable watching
              (pending_seek_state unseekable_player) 2500 unseekable_player
              (watching_keeps _) (watching_keeps _) eq_refl eq_refl eq_refl)
    as (H1 & _ & H3).
  split; assumption.
Defined.

Lemma playing_pending_seek_failures_witness :
  _seekOnPlay (pending_seek_state lengthless_player) = Some 2500 /\
  (exists mp,
     _vlcmp (pending_seek_state lengthless_player) = Some mp /\
     mp_is_seekable mp = true /\ mp_length mp = 0) /\
  result_of
    (_event_playing_sync watching (pending_seek_state lengthless_player)) =
    Raised ZeroDivisionError /\
  _seekOnPlay
    (state_of
       (_event_playing_sync watching
          (pending_seek_state lengthless_player))) = Some 2500.
Proof.
  assert (Hcase : exists mp,
            _vlcmp (pending_seek_state lengthless_player) = Some mp /\
            mp_is_seekable mp = true /\ mp_length mp = 0).
  { exists lengthless_player. repeat split; reflexivity. }
  split; [reflexivity|]. split; [exact Hcase|].
  destruct (playing_pending_seek_failures watching
              (pending_seek_state lengthless_player) 2500
              (watching_keeps _) (watching_keeps _) eq_refl
              (or_intror Hcase)) as (H1 & _ & H3).
  split; assumption.
Defined.

Lemma playing_reapplies_pause_witness :
  _vlcmp (set_paused_field true (active_state Playing)) =
    Some (running_player Playing) /\
  exists seen rest,
    trace_of
      (_event_playing_sync watching
         (set_paused_field true (active_state Playing))) =
      [SetPause 7 true] ++ Emit (SigSongStarted (Some song_A)) seen :: rest /\
    _paused seen = true /\
    count_events is_set_pause rest = 0%nat.
Proof.
  split; [reflexivity|].
  destruct (playing_reapplies_pause watching
              (set_paused_field true (active_state Playing))
              (running_player Playing) eq_refl)
    as (seen & rest & H1 & H2 & H3 & _).
  exists seen, rest. repeat split; assumption.
Defined.

Lemma paused_setter_syncs_native_witness :
  keeps unpausing _vlcmp /\
  _vlcmp (active_state Playing) = Some (running_player Playing) /\
  _paused (state_of (paused_setter unpausing true (active_state Playing))) =
    false /\
  exists t,
    trace_of (paused_setter unpausing true (active_state Playing)) =
      t ++ [SetPause 7 false] /\
    count_events is_set_pause t = 0%nat.
Proof.
  split; [exact unpausing_keeps_player|]. split; [reflexivity|].
  split; [reflexivity|].
  exact (paused_setter_syncs_native unpausing true (active_state Playing)
           (running_player Playing) unpausing_keeps_player eq_refl).
Defined.

Lemma mute_reads_native_flag_witness :
  _vlcmp (active_state Playing) = Some (running_player Playing) /\
  mp_mute (running_player Playing) = 0 /\
  do_get_property "mute" (active_state Playing) =
    (Returned (VBool false), active_state Playing, []) /\
  do_get_property "mute" (set_vlcmp (Some odd_mute_player) idle_state) =
    (Raised KeyError, set_vlcmp (Some odd_mute_player) idle_state, []).
Proof.
  split; [reflexivity|]. split; [reflexivity|]. split.
  - exact (proj1 (proj2 (mute_reads_native_flag (active_state Playing)
                           (running_player Playing) eq_refl))
             (or_introl eq_refl)).
  - exact (proj2 (proj2 (mute_reads_native_flag
                           (set_vlcmp (Some odd_mute_player) idle_state)
                           odd_mute_player eq_refl))
             (or_intror eq_refl)).
Defined.

Lemma unknown_property_raises_witness :
  "seekable"%string <> "volume"%string /\
  "seekable"%string <> "mute"%string /\
  do_set_property no_replaygain "seekable" (VBool true) idle_state =
    (Raised AttributeError, idle_state, []).
Proof.
  assert (H1 : "seekable"%string <> "volume"%string)
    by (intros H; discriminate H).
  assert (H2 : "seekable"%string <> "mute"%string)
    by (intros H; discriminate H).
  split; [exact H1|]. split; [exact H2|].
  exact (proj1 (unknown_property_raises no_replaygain "seekable" (VBool true)
                  idle_state H1 H2)).
Defined.

Lemma mute_without_player_is_dropped_witness :
  _vlcmp idle_state = None /\
  do_set_property no_replaygain "mute" (VBool true) idle_state =
    (Returned tt, idle_state, []) /\
  do_get_property "mute" idle_state =
    (Returned (VBool false), idle_state, []).
Proof.
  split; [reflexivity|].
  exact (mute_without_player_is_dropped no_replaygain (VBool true)
           idle_state eq_refl).
Defined.

Lemma get_position_within_length_witness :
  _vlcmp (active_state Playing) = Some (running_player Playing) /\
  (0 <= mp_position (running_player Playing))%Q /\
  (mp_position (running_player Playing) <= 1)%Q /\
  0 <= mp_length (running_player Playing) /\
  exists ms,
    get_position (active_state Playing) =
      (Returned ms, active_state Playing, []) /\
    0 <= ms <= mp_length (running_player Playing).
Proof.
  assert (H1 : (0 <= mp_position (running_player Playing))%Q)
    by (intros H; discriminate H).
  assert (H2 : (mp_position (running_player Playing) <= 1)%Q)
    by (intros H; discriminate H).
  assert (H3 : 0 <= mp_length (running_player Playing))
    by (intros H; discriminate H).
  split; [reflexivity|]. split; [exact H1|]. split; [exact H2|].
  split; [exact H3|].
  exact (get_position_within_length (active_state Playing)
           (running_player Playing) eq_refl H1 H2 H3).
Defined.

Lemma nonzero_gains_set_every_band_witness :
  Exists (fun g => ~ (g == 0)%Q) (_eq_values tuned_eq_state) /\
  exists amps,
    trace_of (update_eq_values tuned_eq_state) =
      [EqRelease (Some 4%nat); EqNewFromPreset 0 8] ++ amps ++
      [SetEqualizer 7 8] /\
    List.length amps = 3%nat /\
    forall band val,
      nth_error (_eq_values tuned_eq_state) band = Some val ->
      nth_error amps band = Some (EqSetAmpAtIndex 8 val band).
Proof.
  assert (H : Exists (fun g => ~ (g == 0)%Q) (_eq_values tuned_eq_state)).
  { apply Exists_cons_tl. apply Exists_cons_hd. intros E. discriminate E. }
  split; [exact H|].
  exact (nonzero_gains_set_every_band tuned_eq_state H).
Defined.

Lemma second_update_releases_first_handle_witness :
  (forall h0, _vlceq tuned_eq_state = Some h0 ->
              (h0 < next_handle tuned_eq_state)%nat) /\
  _vlceq (state_of ((update_eq_values ;; update_eq_values) tuned_eq_state)) =
    Some 9%nat /\
  count_events (releases_eq 8)
    (trace_of ((update_eq_values ;; update_eq_values) tuned_eq_state)) =
    1%nat /\
  count_events (releases_eq 9)
    (trace_of ((update_eq_values ;; update_eq_values) tuned_eq_state)) =
    0%nat.
Proof.
  assert (H : forall h0, _vlceq tuned_eq_state = Some h0 ->
                         (h0 < next_handle tuned_eq_state)%nat).
  { intros h0 E. injection E as <-. cbn. lia. }
  split; [exact H|].
  destruct (second_update_releases_first_handle tuned_eq_state H)
    as (_ & H2 & _ & H4 & H5).
  repeat split; assumption.
Defined.

Lemma end_of_source_goes_idle_witness :
  keeps watching _source /\
  source_current (_source last_song_state) = None /\
  song (state_of (_end watching blank_player false None last_song_state)) =
    None /\
  _vlcmp (state_of (_end watching blank_player false None last_song_state)) =
    None /\
  count_events is_play
    (trace_of (_end watching blank_player false None last_song_state)) =
    0%nat.
Proof.
  split; [exact (watching_keeps _)|]. split; [reflexivity|].
  destruct (end_of_source_goes_idle watching blank_player false
              last_song_state (watching_keeps _) eq_refl)
    as (_ & H2 & _ & H4 & H5 & _).
  repeat split; assumption.
Defined.

Lemma skip_reuses_native_player_witness :
  keeps watching _vlcmp /\
  _vlcmp (active_state Playing) = Some (running_player Playing) /\
  song (state_of (_end watching blank_player true (Some song_B)
                    (active_state Playing))) = Some song_B /\
  _vlcmp (state_of (_end watching blank_player true (Some song_B)
                      (active_state Playing))) =
    Some (running_player Playing) /\
  exists te,
    trace_of (_end watching blank_player true (Some song_B)
                (active_state Playing)) =
      te ++ [SetMrl 7 "file:///b.ogg"; Play 7] /\
    map fst (emissions te) = [SigSongEnded (Some song_A) true].
Proof.
  split; [exact (watching_keeps _)|]. split; [reflexivity|].
  destruct (skip_reuses_native_player watching blank_player true song_B
              (active_state Playing) (running_player Playing)
              (watching_keeps _) eq_refl)
    as (_ & H2 & _ & H4 & te & H5 & H6 & _).
  split; [exact H2|]. split; [exact H4|].
  exists te. split; [exact H5 | exact H6].
Defined.

Lemma ended_always_creates_player_witness :
  keeps watching _vlcmp /\
  keeps watching _source /\
  source_current (source_next_ended (_source (active_state Ended))) =
    Some song_B /\
  count_events is_set_mrl
    (trace_of (_event_ended_sync watching blank_player (active_state Ended))) =
    0%nat /\
  count_events is_new_player
    (trace_of (_event_ended_sync watching blank_player (active_state Ended))) =
    1%nat /\
  count_events is_release
    (trace_of (_event_ended_sync watching blank_player (active_state Ended))) =
    0%nat.
Proof.
  split; [exact (watching_keeps _)|]. split; [exact (watching_keeps _)|].
  split; [reflexivity|].
  destruct (ended_always_creates_player watching blank_player
              (active_state Ended) song_B (watching_keeps _)
              (watching_keeps _) eq_refl)
    as (_ & _ & _ & H4 & H5 & _ & H7).
  repeat split; assumption.
Defined.

Lemma recreated_player_gets_equalizer_witness :
  song tuned_eq_state = Some song_A /\
  _vlceq tuned_eq_state = Some 4%nat /\
  In (SetEqualizer 8 4)
    (trace_of ((_stop ;; _play blank_player None) tuned_eq_state)) /\
  count_events is_volume_push
    (trace_of ((_stop ;; _play blank_player None) tuned_eq_state)) = 0%nat.
Proof.
  split; [reflexivity|]. split; [reflexivity|].
  destruct (recreated_player_gets_equalizer blank_player None tuned_eq_state
              song_A 4%nat eq_refl eq_refl) as (_ & _ & H3 & _ & H5 & _).
  split; assumption.
Defined.

Lemma presets_match_bands_witness :
  exists presets,
    result_of (eq_preset_list three_bands two_presets sample_name
                 sample_preamp sample_amp idle_state) = Returned presets /\
    List.length presets = 2%nat /\
    exists e,
      nth_error presets 1 = Some e /\
      preset_label e = "VLC: Classical"%string /\
      nth_error (preset_bands e) 2 = Some (inject_Z 2).
Proof.
  destruct (presets_match_bands three_bands sample_frequency two_presets
              sample_name sample_preamp sample_amp idle_state)
    as (presets & bands & H1 & _ & H3 & _ & _ & H6).
  exists presets. split; [exact H1|]. split; [exact H3|].
  destruct (H6 1%nat (le_n 2)) as (e & E1 & E2 & _ & E4).
  exists e. split; [exact E1|]. split; [exact E2|].
  exact (E4 2%nat (le_n 3)).
Defined.

(** The product of the volume path is the double product, not the exact
    one: for the double written 0.3 the exact product with 100 lies just
    below 30 and would truncate to 29, while the double product is 30,
    which is what is pushed. *)
Example volume_product_is_rounded_to_double :
  py_int (double_0_3 * 100) = 29 /\
  (float_mul double_0_3 100 == 30)%Q /\
  trace_of (do_set_property no_replaygain "volume" (VFloat double_0_3)
              (active_state Playing)) = [AudioSetVolume 7 30].
Proof. repeat split; reflexivity. Qed.
